(** * Pangea AI Guard lab: the API helper [api/pangea_api.py]

    A shallow embedding of the four pieces of the module
    - [create_error_response], the synthesized error response,
    - [merge_aidr_metadata], the metadata merger,
    - [pangea_post_api] / [pangea_get_api], the HTTP wrappers,
    - [poll_request], the polling loop,
    and the properties its specification states about them.

    Python dictionaries are objects with identity: the merger copies the
    module-level defaults and updates the caller's dictionary in place, so
    dictionaries live in a store indexed by locations and values refer to
    them by location.  The network and the clock are the environment: the
    outcome of the i-th HTTP call is given by an oracle, the requests issued
    and the seconds slept are recorded in the state. *)

From stdpp Require Import gmap strings list fin_maps.
From Stdlib Require Import ZArith.

Set Warnings "-register-all".

(** ** Python values and the object store *)

Abbreviation loc := nat (only parsing).

(** Values as the merger sees them: immutable scalars, references to
    dictionaries, and references to any other kind of object. *)
Inductive pyval :=
| VNone
| VBool (b : bool)
| VInt (z : Z)
| VStr (s : string)
| VDict (l : loc)
| VObj (l : loc).

Global Instance pyval_eq_dec : EqDecision pyval.
Proof. solve_decision. Defined.

(** [isinstance(value, dict)] *)
Definition isinstance_dict (v : pyval) : bool :=
  match v with VDict _ => true | _ => false end.

(** ** JSON documents, as [json.loads] returns them *)

Inductive json :=
| JNull
| JBool (b : bool)
| JInt (z : Z)
| JStr (s : string)
| JArr (items : list json)
| JObj (fields : list (string * json)).

(** [value == s] for a string literal [s]: only a string equals a string. *)
Definition eq_str (v : json) (s : string) : bool :=
  match v with JStr t => bool_decide (t = s) | _ => false end.

(** ** Exceptions

    The classes the module can meet, with the part of the hierarchy of
    [requests.exceptions] that the two [except] clauses look at. *)
Inductive exn_class :=
| Timeout | ConnectTimeout | ReadTimeout
| ConnectionError | HTTPError | TooManyRedirects | RequestException
| JSONDecodeError
| KeyError | TypeError | AttributeError
| KeyboardInterrupt.

Global Instance exn_class_eq_dec : EqDecision exn_class.
Proof. solve_decision. Defined.

(** [issubclass(c, requests.exceptions.Timeout)] *)
Definition is_Timeout (c : exn_class) : bool :=
  match c with
  | Timeout | ConnectTimeout | ReadTimeout => true
  | _ => false
  end.

(** [issubclass(c, requests.exceptions.RequestException)] *)
Definition is_RequestException (c : exn_class) : bool :=
  match c with
  | Timeout | ConnectTimeout | ReadTimeout
  | ConnectionError | HTTPError | TooManyRedirects | RequestException
  | JSONDecodeError => true
  | _ => false
  end.

(** An exception object: its class and [str(e)]. *)
Record exn := Exn { exn_cls : exn_class; exn_str : string }.

Global Instance exn_eq_dec : EqDecision exn.
Proof. solve_decision. Defined.

(** ** Responses *)

(** The bytes of a body either are the UTF-8 JSON text of a document
    ([json.dumps(j).encode("utf-8")], which [Response.json] reads back), or
    do not decode. *)
Inductive content :=
| Encoded (j : json)
| Undecodable (raw : string).

Record Response := mkResponse { status_code : Z; _content : content }.

(** ** Requests *)

Inductive http_method := GET | POST.

Global Instance http_method_eq_dec : EqDecision http_method.
Proof. solve_decision. Defined.

(** [urljoin(base, endpoint)], kept symbolic. *)
Inductive url := urljoin (base endpoint : string).

Record request := mkRequest {
  req_method : http_method;
  req_url : url;
  req_headers : list (string * string);
  req_json : option pyval;
  req_timeout : Z * Z
}.

(** ** Program state and the computation monad *)

Record state := mkState {
  heap : gmap loc (gmap string pyval);
  sent : list request;        (* requests issued so far, oldest first *)
  slept : Z                   (* seconds spent in [time.sleep] *)
}.

Inductive outcome (A : Type) :=
| Ret (a : A)
| Raise (e : exn)
| OutOfFuel.
Arguments Ret {A} a.
Arguments Raise {A} e.
Arguments OutOfFuel {A}.

Definition M (A : Type) : Type := state → outcome A * state.

Global Instance M_ret : MRet M := λ A a s, (Ret a, s).
Global Instance M_bind : MBind M := λ A B f m s,
  match m s with
  | (Ret a, s') => f a s'
  | (Raise e, s') => (Raise e, s')
  | (OutOfFuel, s') => (OutOfFuel, s')
  end.

Definition raise {A} (c : exn_class) (msg : string) : M A :=
  λ s, (Raise (Exn c msg), s).

(** [try: body except Timeout: h1 except RequestException as e: h2 e] *)
Definition try_except {A} (body : M A) (on_timeout : M A)
    (on_request_exception : exn → M A) : M A := λ s,
  match body s with
  | (Raise e, s') =>
      if is_Timeout (exn_cls e) then on_timeout s'
      else if is_RequestException (exn_cls e) then on_request_exception e s'
      else (Raise e, s')
  | r => r
  end.

(** *** Store operations *)

Definition get_heap : M (gmap loc (gmap string pyval)) := λ s, (Ret (heap s), s).

Definition with_heap (s : state) (h : gmap loc (gmap string pyval)) : state :=
  mkState h (sent s) (slept s).

Definition set_heap (h : gmap loc (gmap string pyval)) : M unit := λ s,
  (Ret tt, with_heap s h).

(** Contents of the dictionary at [l]. *)
Definition read_dict (l : loc) : M (gmap string pyval) :=
  h ← get_heap;
  match h !! l with
  | Some d => mret d
  | None => raise TypeError "not a dict"
  end.

Definition write_dict (l : loc) (d : gmap string pyval) : M unit :=
  h ← get_heap; set_heap (<[l := d]> h).

(** A new dictionary object. *)
Definition new_dict (d : gmap string pyval) : M loc :=
  h ← get_heap;
  let l := fresh (dom h) in
  set_heap (<[l := d]> h);; mret l.

(** [d.copy()] *)
Definition dict_copy (l : loc) : M loc :=
  d ← read_dict l; new_dict d.

(** [v.copy()] for a value [v] *)
Definition method_copy (v : pyval) : M pyval :=
  match v with
  | VDict l => l' ← dict_copy l; mret (VDict l')
  | _ => raise AttributeError "copy"
  end.

(** [d[key]] *)
Definition dict_getitem (l : loc) (key : string) : M pyval :=
  d ← read_dict l;
  match d !! key with
  | Some v => mret v
  | None => raise KeyError key
  end.

(** [d[key] = value] *)
Definition dict_setitem (l : loc) (key : string) (value : pyval) : M unit :=
  d ← read_dict l; write_dict l (<[key := value]> d).

(** [key in d] *)
Definition dict_contains (l : loc) (key : string) : M bool :=
  d ← read_dict l; mret (bool_decide (is_Some (d !! key))).

(** [v.update(other)]: the entries of [other] win. *)
Definition method_update (v other : pyval) : M unit :=
  match v, other with
  | VDict l, VDict o =>
      src ← read_dict o; d ← read_dict l; write_dict l (src ∪ d)
  | VDict _, _ => raise TypeError "update"
  | _, _ => raise AttributeError "update"
  end.

(** [for key, value in items: body key value] *)
Fixpoint for_list (items : list (string * pyval)) (body : string → pyval → M unit)
    : M unit :=
  match items with
  | [] => mret tt
  | (key, value) :: rest => body key value;; for_list rest body
  end.

(** [for key, value in d.items(): body key value] over the items [d] had
    when the loop started.  The map enumerates them in its own order, not in
    the order of insertion; the two loops of the merger come out the same for
    every enumeration (lemmas [insertion_list_run], [override_list_run]). *)
Definition for_items (d : gmap string pyval) (body : string → pyval → M unit) : M unit :=
  for_list (map_to_list d) body.

(** Truth value of an optional dictionary: [None] and [{}] are false. *)
Definition truthy (o : option loc) : M bool :=
  match o with
  | None => mret false
  | Some l => d ← read_dict l; mret (negb (bool_decide (d = ∅)))
  end.

(** ** The module's globals *)

(** Location of [DEFAULT_AIDR_METADATA] and of its nested [extra_info]. *)
Definition DEFAULT_AIDR_METADATA : loc := 0.
Definition DEFAULT_extra_info : loc := 1.

Definition default_extra_info (user : string) : gmap string pyval :=
  <["actor_name" := VStr user]> (
  <["app_name" := VStr "AIGuard-lab"]> ∅).

Definition default_aidr_metadata : gmap string pyval :=
  <["event_type" := VStr "input"]> (
  <["app_id" := VStr "AIG-lab"]> (
  <["actor_id" := VStr "test tool"]> (
  <["llm_provider" := VStr "test"]> (
  <["model" := VStr "GPT-6-super"]> (
  <["model_version" := VStr "6s"]> (
  <["source_ip" := VStr "74.244.51.54"]> (
  <["extra_info" := VDict DEFAULT_extra_info]> ∅))))))).

(** The store right after the module is imported, [user] being what
    [getpass.getuser()] returned. *)
Definition module_heap (user : string) : gmap loc (gmap string pyval) :=
  <[DEFAULT_AIDR_METADATA := default_aidr_metadata]> (
  <[DEFAULT_extra_info := default_extra_info user]> ∅).

(** ** [merge_aidr_metadata] *)

(** Body of the loop over [aidr_config.items()]. *)
Definition apply_override (metadata : loc) (key : string) (value : pyval) : M unit :=
  if bool_decide (key = "extra_info") && isinstance_dict value then
    (* Merge extra_info specifically *)
    cur ← dict_getitem metadata "extra_info";
    method_update cur value
  else
    dict_setitem metadata key value.

(** Body of the loop over [metadata.items()]. *)
Definition insert_missing (data : loc) (key : string) (value : pyval) : M unit :=
  present ← dict_contains data key;
  if negb (present : bool) then dict_setitem data key value else mret tt.

Definition merge_aidr_metadata (data : loc) (aidr_config : option loc) : M loc :=
  (* Start with default metadata *)
  metadata ← dict_copy DEFAULT_AIDR_METADATA;
  (* Deep copy extra_info to avoid modifying the default *)
  extra ← dict_getitem DEFAULT_AIDR_METADATA "extra_info";
  extra' ← method_copy extra;
  dict_setitem metadata "extra_info" extra';;
  (* Override with custom config if provided *)
  cond ← truthy aidr_config;
  (if (cond : bool) then
     match aidr_config return M unit with
     | Some cfg =>
         overrides ← read_dict cfg;
         for_items overrides (apply_override metadata)
     | None => mret tt
     end
   else mret tt);;
  (* Merge metadata into data (don't override existing keys in data) *)
  items ← read_dict metadata;
  for_items items (insert_missing data);;
  mret data.

(** ** [create_error_response] *)

Definition create_error_response (status_code : Z) (message : string) : Response :=
  let error_content := JObj [("status", JInt status_code); ("message", JStr message)] in
  mkResponse status_code (Encoded error_content).

(** ** The network and the clock *)

(** What one call of [requests.post] or [requests.get] can do: hand back a
    response object (or, for the sake of the [is None] test, nothing), or
    raise. *)
Inductive http_result :=
| Responded (r : option Response)
| Failed (e : exn).

(** The outcome of the i-th HTTP call of the run, counting from 0. *)
Abbreviation network := (nat → http_result) (only parsing).

Definition record_request (s : state) (req : request) : state :=
  mkState (heap s) (sent s ++ [req]) (slept s).

Definition requests_call (net : network) (req : request) : M (option Response) := λ s,
  let s' := record_request s req in
  match net (length (sent s)) with
  | Responded r => (Ret r, s')
  | Failed e => (Raise e, s')
  end.

(** [time.sleep(seconds)] *)
Definition time_sleep (seconds : Z) : M unit := λ s,
  (Ret tt, mkState (heap s) (sent s) (slept s + seconds)).

(** [defaults.connection_timeout] and [defaults.read_timeout]. *)
Record defaults := mkDefaults { connection_timeout : Z; read_timeout : Z }.

(** ** [pangea_post_api] *)

Definition post_headers (token : string) (skip_cache : bool) : list (string * string) :=
  let headers := [("Authorization", "Bearer " +:+ token);
                  ("Content-Type", "application/json")] in
  if skip_cache then headers ++ [("x-pangea-skipcache", "true")] else headers.

Definition post_request (cfg : defaults) (endpoint : string) (data : loc)
    (skip_cache : bool) (token base_url : string) : request :=
  mkRequest POST (urljoin base_url endpoint) (post_headers token skip_cache)
            (Some (VDict data)) (connection_timeout cfg, read_timeout cfg).

Definition pangea_post_api (net : network) (cfg : defaults)
    (service endpoint : string) (data : loc) (skip_cache : bool)
    (token base_url : string) (aidr_config : option loc) : M Response :=
  try_except
    ((* Add AIDR metadata if using AIDR service *)
     data ← (if bool_decide (service = "aidr")
             then merge_aidr_metadata data aidr_config
             else mret data);
     response ← requests_call net
                  (post_request cfg endpoint data skip_cache token base_url);
     match response with
     | None => mret (create_error_response 500
                       "Internal server error: failed to fetch data")
     | Some r => mret r
     end)
    (mret (create_error_response 408 "Request Timeout"))
    (λ e, mret (create_error_response 400 ("Bad Request: " +:+ exn_str e))).

(** ** [pangea_get_api] and [pangea_request] *)

Definition get_request (cfg : defaults) (endpoint token base_url : string) : request :=
  mkRequest GET (urljoin base_url endpoint)
            [("Authorization", "Bearer " +:+ token);
             ("Content-Type", "application/json")]
            None (connection_timeout cfg, read_timeout cfg).

Definition pangea_get_api (net : network) (cfg : defaults)
    (endpoint token base_url : string) : M (option Response) :=
  try_except
    (response ← requests_call net (get_request cfg endpoint token base_url);
     mret response)
    (mret (Some (create_error_response 408 "Request Timeout")))
    (λ e, mret (Some (create_error_response 400 ("Bad Request: " +:+ exn_str e)))).

Definition pangea_request (net : network) (cfg : defaults)
    (request_id token base_url : string) : M (option Response) :=
  let endpoint := "/request/" +:+ request_id in
  pangea_get_api net cfg endpoint token base_url.

(** ** [poll_request] *)

(** [response.json()] *)
Definition Response_json (r : Response) : M json :=
  match _content r with
  | Encoded j => mret j
  | Undecodable _ => raise JSONDecodeError "Expecting value"
  end.

(** Value of [key] in a decoded object; of repeated names the last wins. *)
Definition json_field (key : string) (fields : list (string * json)) : option json :=
  snd <$> find (λ kv, bool_decide (kv.1 = key)) (reverse fields).

(** [j[key]] *)
Definition json_getitem (j : json) (key : string) : M json :=
  match j with
  | JObj fields =>
      match json_field key fields with
      | Some v => mret v
      | None => raise KeyError key
      end
  | _ => raise TypeError "indices must be integers"
  end.

(** The [while] loop, entered with the current [status_code], [response]
    and [counter]; [fuel] bounds the number of iterations the model runs.
    What [verbose] prints is not modelled. *)
Fixpoint poll_loop (net : network) (cfg : defaults) (fuel : nat)
    (request_id : string) (max_attempts : Z) (token base_url : string)
    (status_code : json) (response : option Response) (counter : Z)
    : M (json * option Response) :=
  if eq_str status_code "Accepted" then
    match fuel with
    | O => λ s, (OutOfFuel, s)
    | S fuel =>
        response ← pangea_request net cfg request_id token base_url;
        match response with
        | None => mret (status_code, None)
        | Some r =>
            body ← Response_json r;
            status_code ← json_getitem body "status";
            if eq_str status_code "Success" then mret (status_code, response)
            else if negb (eq_str status_code "Accepted") then mret (status_code, response)
            else if bool_decide (counter = max_attempts) then mret (status_code, response)
            else
              time_sleep 5;;
              poll_loop net cfg fuel request_id max_attempts token base_url
                        status_code response (counter + 1)%Z
        end
    end
  else mret (status_code, response).

Definition poll_request (net : network) (cfg : defaults) (fuel : nat)
    (request_id : string) (max_attempts : Z) (verbose : bool)
    (token base_url : string) : M (json * option Response) :=
  let status_code := JStr "Accepted" in
  let response := None in
  let counter := 1%Z in
  poll_loop net cfg fuel request_id max_attempts token base_url
            status_code response counter.

(** The [status] a response carries in its JSON body, if any. *)
Definition status_of (r : Response) : option json :=
  match _content r with
  | Encoded (JObj fields) => json_field "status" fields
  | _ => None
  end.

(** Number of GET requests among the requests issued. *)
Definition count_get (l : list request) : nat :=
  length (filter (λ r, req_method r = GET) l).

(** The request every polling attempt issues. *)
Definition poll_get (cfg : defaults) (request_id token base_url : string) : request :=
  get_request cfg ("/request/" +:+ request_id) token base_url.

(** *** What the merger computes, in closed form

    [overrides_of h cfg] is the override dictionary ([{}] when none is
    given); [merged_metadata] and [merged_extra] are the contents of the
    local [metadata] and of its [extra_info] after the override loop. *)
Definition overrides_of (h : gmap loc (gmap string pyval)) (aidr_config : option loc)
    : gmap string pyval :=
  match aidr_config with
  | Some cfg => default ∅ (h !! cfg)
  | None => ∅
  end.

Definition merged_metadata (O M0 : gmap string pyval) : gmap string pyval :=
  match O !! "extra_info" with
  | Some (VDict _) => delete "extra_info" O ∪ M0
  | _ => O ∪ M0
  end.

Definition merged_extra (h : gmap loc (gmap string pyval)) (O E : gmap string pyval)
    : gmap string pyval :=
  match O !! "extra_info" with
  | Some (VDict v) => default ∅ (h !! v) ∪ E
  | _ => E
  end.

(** What the merger needs of the store: the defaults are in place with a
    dictionary under [extra_info], the target is a dictionary, the override
    mapping, if any, is a dictionary, and a dictionary it gives for
    [extra_info] exists. *)
Record merge_pre (h : gmap loc (gmap string pyval)) (data : loc)
    (aidr_config : option loc) (D : gmap string pyval) (e0 : loc)
    (E X : gmap string pyval) : Prop := {
  pre_default : h !! DEFAULT_AIDR_METADATA = Some D;
  pre_extra_ref : D !! "extra_info" = Some (VDict e0);
  pre_extra : h !! e0 = Some E;
  pre_data : h !! data = Some X;
  pre_config : ∀ cfg, aidr_config = Some cfg → is_Some (h !! cfg);
  pre_config_extra : ∀ v, overrides_of h aidr_config !! "extra_info" = Some (VDict v) →
                          is_Some (h !! v)
}.

(** The state after [k] polling attempts and [n] sleeps of five seconds. *)
Definition after_attempts (s : state) (req : request) (k n : nat) : state :=
  mkState (heap s) (sent s ++ replicate k req) (slept s + 5 * Z.of_nat n).

(** The response the loop holds after [k] attempts answered by [rs 0],
    ..., [rs (k - 1)], starting from [response]. *)
Definition held_response (response : option Response) (rs : nat → Response) (k : nat)
    : option Response :=
  match k with
  | O => response
  | S k' => Some (rs k')
  end.

(** ** Sample inputs *)

(** The state right after import, nothing sent, no time slept. *)
Definition initial_state (user : string) : state :=
  mkState (module_heap user) [] 0.

(** A caller's payload at location 2 that already has its own [app_id], an
    override mapping at 3 whose [extra_info] is the dictionary at 4. *)
Definition sample_payload : gmap string pyval := {["app_id" := VStr "mine"]}.
Definition sample_overrides : gmap string pyval :=
  <["model" := VStr "m1"]> {["extra_info" := VDict 4]}.
Definition sample_extra : gmap string pyval := {["a" := VInt 1]}.

Definition sample_state : state :=
  mkState (<[2 := sample_payload]> (
           <[3 := sample_overrides]> (
           <[4 := sample_extra]> (module_heap "root")))) [] 0.

Definition sample_defaults : defaults := mkDefaults 10 60.

Definition accepted_response : Response :=
  mkResponse 202 (Encoded (JObj [("status", JStr "Accepted")])).
Definition success_response : Response :=
  mkResponse 200 (Encoded (JObj [("status", JStr "Success")])).
Definition failure_response : Response :=
  mkResponse 400 (Encoded (JObj [("status", JStr "ValidationError")])).

(** Eleven times "Accepted", then "Success". *)
Definition eleven_accepted_then_success (i : nat) : Response :=
  if i <? 11 then accepted_response else success_response.

Definition net_success_on_twelfth : nat → http_result :=
  λ i, Responded (Some (eleven_accepted_then_success i)).
Definition net_always_accepted : nat → http_result :=
  λ _, Responded (Some accepted_response).
Definition net_failure : nat → http_result :=
  λ _, Responded (Some failure_response).
Definition net_no_response : nat → http_result :=
  λ _, Responded None.
Definition net_read_timeout : nat → http_result :=
  λ _, Failed (Exn ReadTimeout "read timed out").
(** Two answers "Accepted", then the connection is refused. *)
Definition net_refused_on_third : nat → http_result :=
  λ i, if i <? 2 then Responded (Some accepted_response)
       else Failed (Exn ConnectionError "connection refused").

(** ** Module import: the two required settings *)

(** [defaults.ai_guard_token] and [defaults.pangea_base_url]: the names of
    the environment variables that hold the token and the base URL. *)
Record setting_names := mkSettingNames {
  ai_guard_token_name : string;
  pangea_base_url_name : string
}.



(** ** More sample inputs *)

Definition sample_names : setting_names :=
  mkSettingNames "PANGEA_AI_GUARD_TOKEN" "PANGEA_BASE_URL".

Definition sample_environ : gmap string string :=
  <["PANGEA_AI_GUARD_TOKEN" := "pts_abc"]> {["PANGEA_BASE_URL" := "https://aidr.example"]}.

(** The defaults after somebody has removed their [extra_info]. *)
Definition state_without_extra_info : state :=
  mkState (<[2 := sample_payload]>
             (<[DEFAULT_AIDR_METADATA := delete "extra_info" default_aidr_metadata]>
                (module_heap "root"))) [] 0.

(** An empty override mapping at location 5. *)
Definition state_with_empty_override : state :=
  mkState (<[5 := ∅]> (heap sample_state)) [] 0.

Definition undecodable_response : Response :=
  mkResponse 502 (Undecodable "<html>Bad Gateway</html>").
Definition status_less_response : Response :=
  mkResponse 200 (Encoded (JObj [("result", JStr "ok")])).
Definition array_response : Response :=
  mkResponse 200 (Encoded (JArr [JStr "Accepted"])).
Definition queued_response : Response :=
  mkResponse 200 (Encoded (JObj [("status", JInt 102)])).

Definition net_interrupted : nat → http_result :=
  λ _, Failed (Exn KeyboardInterrupt "").
(** Two answers "Accepted", then the given result. *)
Definition net_then (third : http_result) : nat → http_result :=
  λ i, if i <? 2 then Responded (Some accepted_response) else third.

(** A payload at location 6 that brings its own [extra_info], the
    dictionary at 7. *)
Definition payload_with_extra : gmap string pyval := {["extra_info" := VDict 7]}.
Definition state_with_own_extra : state :=
  mkState (<[6 := payload_with_extra]> (<[7 := {["b" := VInt 2]}]> (heap sample_state)))
          [] 0.

(** * Proofs *)

(** ** Running computations *)

Lemma bind_run {A B} (m : M A) (f : A → M B) s a s' :
  m s = (Ret a, s') → (m ≫= f) s = f a s'.
Proof. intros H. unfold mbind, M_bind. by rewrite H. Qed.

Lemma heap_with_heap s h : heap (with_heap s h) = h.
Proof. done. Qed.

Lemma with_heap_with_heap s h h' : with_heap (with_heap s h) h' = with_heap s h'.
Proof. done. Qed.

Lemma with_heap_id s : with_heap s (heap s) = s.
Proof. by destruct s. Qed.

Lemma read_dict_run l d s :
  heap s !! l = Some d → read_dict l s = (Ret d, s).
Proof. intros H. unfold read_dict, mbind, M_bind, get_heap. by rewrite H. Qed.

Lemma write_dict_run l d s :
  write_dict l d s = (Ret tt, with_heap s (<[l := d]> (heap s))).
Proof. done. Qed.

Lemma new_dict_run d s :
  new_dict d s =
  (Ret (fresh (dom (heap s))), with_heap s (<[fresh (dom (heap s)) := d]> (heap s))).
Proof. done. Qed.

Lemma dict_setitem_run l key value d s :
  heap s !! l = Some d →
  dict_setitem l key value s = (Ret tt, with_heap s (<[l := <[key := value]> d]> (heap s))).
Proof.
  intros H. unfold dict_setitem.
  rewrite (bind_run _ _ _ _ _ (read_dict_run _ _ _ H)). apply write_dict_run.
Qed.

Lemma dict_getitem_run l key d v s :
  heap s !! l = Some d → d !! key = Some v →
  dict_getitem l key s = (Ret v, s).
Proof.
  intros H Hk. unfold dict_getitem.
  rewrite (bind_run _ _ _ _ _ (read_dict_run _ _ _ H)). by rewrite Hk.
Qed.

Lemma dict_contains_run l key d s :
  heap s !! l = Some d →
  dict_contains l key s = (Ret (bool_decide (is_Some (d !! key))), s).
Proof.
  intros H. unfold dict_contains.
  by rewrite (bind_run _ _ _ _ _ (read_dict_run _ _ _ H)).
Qed.

Lemma fresh_loc_None (h : gmap loc (gmap string pyval)) : h !! fresh (dom h) = None.
Proof. apply not_elem_of_dom, is_fresh. Qed.

Lemma fresh_loc_ne (h : gmap loc (gmap string pyval)) l d :
  h !! l = Some d → l ≠ fresh (dom h).
Proof. intros H ->. by rewrite fresh_loc_None in H. Qed.

(** ** The insertion loop: a left-biased union *)

Lemma union_insert_present (X m : gmap string pyval) i x :
  is_Some (X !! i) → X ∪ <[i := x]> m = X ∪ m.
Proof.
  intros [y Hy]. apply map_eq. intros k. rewrite !lookup_union.
  destruct (decide (k = i)) as [->|Hne].
  - rewrite Hy. by destruct (m !! i), (<[i:=x]> m !! i).
  - by rewrite lookup_insert_ne.
Qed.

(** Over any list of items, repeated keys included: the first occurrence
    of a key is the one inserted. *)
Lemma insertion_list_run data (items : list (string * pyval)) :
  ∀ s X, heap s !! data = Some X →
    for_list items (insert_missing data) s =
    (Ret tt, with_heap s (<[data := X ∪ list_to_map items]> (heap s))).
Proof.
  induction items as [|[key value] items IH]; intros s X HX.
  - simpl. rewrite (right_id_L ∅ (∪)), insert_id by done.
    by rewrite with_heap_id.
  - simpl.
    assert (Hbody : insert_missing data key value s =
      (Ret tt, if bool_decide (is_Some (X !! key)) then s
               else with_heap s (<[data := <[key := value]> X]> (heap s)))).
    { unfold insert_missing.
      rewrite (bind_run _ _ _ _ _ (dict_contains_run _ key _ _ HX)).
      case_bool_decide; simpl; [done|by apply dict_setitem_run]. }
    rewrite (bind_run _ _ _ _ _ Hbody).
    case_bool_decide as Hp.
    + rewrite (IH s X HX). by rewrite union_insert_present.
    + erewrite IH by (rewrite heap_with_heap; apply lookup_insert_eq).
      rewrite with_heap_with_heap, heap_with_heap, insert_insert_eq.
      rewrite <- insert_union_l, insert_union_r; [done|].
      by apply eq_None_not_Some.
Qed.

Lemma insertion_loop_run data (items : gmap string pyval) s X :
  heap s !! data = Some X →
  for_items items (insert_missing data) s =
  (Ret tt, with_heap s (<[data := X ∪ items]> (heap s))).
Proof.
  intros HX. unfold for_items.
  by rewrite (insertion_list_run _ _ _ _ HX), list_to_map_to_list.
Qed.

(** ** The override loop *)

Lemma method_update_run l o d src s :
  heap s !! l = Some d → heap s !! o = Some src →
  method_update (VDict l) (VDict o) s =
  (Ret tt, with_heap s (<[l := src ∪ d]> (heap s))).
Proof.
  intros Hl Ho. unfold method_update.
  rewrite (bind_run _ _ _ _ _ (read_dict_run _ _ _ Ho)).
  rewrite (bind_run _ _ _ _ _ (read_dict_run _ _ _ Hl)).
  apply write_dict_run.
Qed.

Lemma merged_metadata_empty M0 : merged_metadata ∅ M0 = M0.
Proof. unfold merged_metadata. rewrite lookup_empty. apply (left_id_L ∅ (∪)). Qed.

Lemma merged_extra_empty h E : merged_extra h ∅ E = E.
Proof. unfold merged_extra. by rewrite lookup_empty. Qed.

Lemma merged_metadata_None O M0 :
  O !! "extra_info" = None → merged_metadata O M0 = O ∪ M0.
Proof. intros H. unfold merged_metadata. by rewrite H. Qed.

Lemma merged_extra_None h O E :
  O !! "extra_info" = None → merged_extra h O E = E.
Proof. intros H. unfold merged_extra. by rewrite H. Qed.

Lemma merged_metadata_insert_dict O M0 v :
  O !! "extra_info" = None →
  merged_metadata (<["extra_info" := VDict v]> O) M0 = O ∪ M0.
Proof.
  intros H. unfold merged_metadata.
  by rewrite lookup_insert_eq, delete_insert_id.
Qed.

Lemma merged_extra_insert_dict h O E v :
  merged_extra h (<["extra_info" := VDict v]> O) E = default ∅ (h !! v) ∪ E.
Proof. unfold merged_extra. by rewrite lookup_insert_eq. Qed.

Lemma merged_metadata_insert_other O M0 i x :
  O !! i = None →
  bool_decide (i = "extra_info") && isinstance_dict x = false →
  merged_metadata (<[i := x]> O) M0 = <[i := x]> (merged_metadata O M0).
Proof.
  intros Hi Hc. unfold merged_metadata.
  destruct (decide (i = "extra_info")) as [->|Hne].
  - rewrite lookup_insert_eq, Hi, insert_union_l.
    rewrite bool_decide_eq_true_2 in Hc by done. by destruct x.
  - rewrite lookup_insert_ne by done.
    destruct (O !! "extra_info") as [[]|]; rewrite ?insert_union_l; try done.
    by rewrite delete_insert_ne.
Qed.

Lemma merged_extra_insert_other h O E i x :
  O !! i = None →
  bool_decide (i = "extra_info") && isinstance_dict x = false →
  merged_extra h (<[i := x]> O) E = merged_extra h O E.
Proof.
  intros Hi Hc. unfold merged_extra.
  destruct (decide (i = "extra_info")) as [->|Hne].
  - rewrite lookup_insert_eq, Hi.
    rewrite bool_decide_eq_true_2 in Hc by done. by destruct x.
  - by rewrite lookup_insert_ne.
Qed.

Lemma merged_metadata_insert_r O M0 i x :
  O !! i = None →
  merged_metadata O (<[i := x]> M0) = <[i := x]> (merged_metadata O M0).
Proof.
  intros Hi. unfold merged_metadata.
  destruct (O !! "extra_info") as [[]|]; rewrite insert_union_r; try done.
  destruct (decide (i = "extra_info")) as [->|?];
    [apply lookup_delete_eq|by rewrite lookup_delete_ne].
Qed.

(** Over any list of items without repeated keys. *)
Lemma override_list_run metadata e (items : list (string * pyval)) :
  metadata ≠ e →
  NoDup items.*1 →
  ∀ s M0 E,
    heap s !! metadata = Some M0 →
    heap s !! e = Some E →
    (∀ v, (list_to_map items : gmap string pyval) !! "extra_info" = Some (VDict v) →
          M0 !! "extra_info" = Some (VDict e) ∧
          v ≠ metadata ∧ v ≠ e ∧ is_Some (heap s !! v)) →
    for_list items (apply_override metadata) s =
    (Ret tt, with_heap s (<[metadata := merged_metadata (list_to_map items) M0]>
                            (<[e := merged_extra (heap s) (list_to_map items) E]>
                               (heap s)))).
Proof.
  intros Hne. induction items as [|[i x] items IH]; intros Hnd s M0 E HM HE Hv.
  - simpl. rewrite merged_metadata_empty, merged_extra_empty.
    rewrite (insert_id _ e), insert_id by done. by rewrite with_heap_id.
  - apply NoDup_cons in Hnd as [Hi Hnd]. simpl in Hi, Hv |- *.
    apply not_elem_of_list_to_map_1 in Hi.
    destruct (bool_decide (i = "extra_info") && isinstance_dict x) eqn:Hc.
    + apply andb_prop in Hc as [Hi' Hx]. apply bool_decide_eq_true in Hi'. subst i.
      destruct x as [| | | |v|]; try discriminate. clear Hx.
      destruct (Hv v) as (He & Hvm & Hve & [V HV]); [apply lookup_insert_eq|].
      erewrite bind_run; last first.
      { unfold apply_override. simpl.
        rewrite (bind_run _ _ _ _ _ (dict_getitem_run _ _ _ _ _ HM He)).
        by apply method_update_run. }
      rewrite (IH Hnd _ M0 (V ∪ E)); first last.
      { intros w Hw. congruence. }
      { rewrite heap_with_heap. apply lookup_insert_eq. }
      { rewrite heap_with_heap. by rewrite lookup_insert_ne. }
      rewrite with_heap_with_heap, heap_with_heap.
      rewrite merged_metadata_None, merged_extra_None by done.
      rewrite merged_metadata_insert_dict, merged_extra_insert_dict by done.
      rewrite HV. simpl. by rewrite insert_insert_eq.
    + erewrite bind_run; last first.
      { unfold apply_override. rewrite Hc. by apply dict_setitem_run. }
      assert (Hv' : ∀ v, (list_to_map items : gmap string pyval) !! "extra_info"
                         = Some (VDict v) →
                M0 !! "extra_info" = Some (VDict e) ∧
                v ≠ metadata ∧ v ≠ e ∧ is_Some (heap s !! v)).
      { intros v Hmv. apply Hv.
        destruct (decide (i = "extra_info")) as [->|?]; [congruence|].
        by rewrite lookup_insert_ne. }
      rewrite (IH Hnd _ (<[i := x]> M0) E); first last.
      { intros v Hmv. destruct (Hv' v Hmv) as (He & Hvm & Hve & Hsome).
        rewrite heap_with_heap. split_and!; try done.
        - rewrite lookup_insert_ne; [done|]. intros ->. congruence.
        - by rewrite lookup_insert_ne. }
      { rewrite heap_with_heap. by rewrite lookup_insert_ne. }
      { rewrite heap_with_heap. apply lookup_insert_eq. }
      rewrite with_heap_with_heap, heap_with_heap.
      rewrite merged_metadata_insert_other, merged_extra_insert_other by done.
      rewrite merged_metadata_insert_r by done.
      assert (HE' : merged_extra (<[metadata := <[i := x]> M0]> (heap s))
                                 (list_to_map items) E
                    = merged_extra (heap s) (list_to_map items) E).
      { unfold merged_extra.
        destruct ((list_to_map items : gmap string pyval) !! "extra_info")
          as [[| | | |v|]|] eqn:Hl; try done.
        destruct (Hv' v eq_refl) as (_ & Hvm & _). by rewrite lookup_insert_ne. }
      rewrite HE'. do 2 f_equal.
      rewrite (insert_insert_ne _ e metadata) by done.
      rewrite insert_insert_eq.
      by rewrite (insert_insert_ne _ metadata e).
Qed.

Lemma override_loop_run metadata e (O : gmap string pyval) :
  metadata ≠ e →
  ∀ s M0 E,
    heap s !! metadata = Some M0 →
    M0 !! "extra_info" = Some (VDict e) →
    heap s !! e = Some E →
    (∀ v, O !! "extra_info" = Some (VDict v) →
          v ≠ metadata ∧ v ≠ e ∧ is_Some (heap s !! v)) →
    for_items O (apply_override metadata) s =
    (Ret tt, with_heap s (<[metadata := merged_metadata O M0]>
                            (<[e := merged_extra (heap s) O E]> (heap s)))).
Proof.
  intros Hne s M0 E HM He HE Hv. unfold for_items.
  rewrite (override_list_run metadata e (map_to_list O) Hne
             (NoDup_fst_map_to_list O) s M0 E HM HE).
  - by rewrite list_to_map_to_list.
  - rewrite list_to_map_to_list. intros v HOv. split; [done|by apply Hv].
Qed.

(** ** The merger in closed form *)

Lemma override_phase_run {B} (k : unit → M B) metadata e aidr_config s M0 E :
  metadata ≠ e →
  heap s !! metadata = Some M0 →
  M0 !! "extra_info" = Some (VDict e) →
  heap s !! e = Some E →
  (∀ cfg, aidr_config = Some cfg → is_Some (heap s !! cfg)) →
  (∀ v, overrides_of (heap s) aidr_config !! "extra_info" = Some (VDict v) →
        v ≠ metadata ∧ v ≠ e ∧ is_Some (heap s !! v)) →
  (cond ← truthy aidr_config;
   (if (cond : bool) then
      match aidr_config return M unit with
      | Some cfg => overrides ← read_dict cfg; for_items overrides (apply_override metadata)
      | None => mret tt
      end
    else mret tt) ≫= k) s =
  k tt (with_heap s
     (<[metadata := merged_metadata (overrides_of (heap s) aidr_config) M0]>
        (<[e := merged_extra (heap s) (overrides_of (heap s) aidr_config) E]> (heap s)))).
Proof.
  intros Hne HM He HE Hcfg Hv.
  assert (Hskip :
    with_heap s (<[metadata := merged_metadata ∅ M0]>
                   (<[e := merged_extra (heap s) ∅ E]> (heap s))) = s).
  { rewrite merged_metadata_empty, merged_extra_empty.
    rewrite (insert_id _ e), insert_id by done. by rewrite with_heap_id. }
  destruct aidr_config as [cfg|]; unfold overrides_of in *;
    [|by rewrite Hskip].
  destruct (Hcfg cfg eq_refl) as [O HO]. rewrite HO in Hv. rewrite HO.
  simpl in Hv |- *.
  unfold truthy.
  erewrite bind_run; last first.
  { erewrite bind_run; [|by apply read_dict_run]. done. }
  case_bool_decide as Hempty; simpl.
  - subst O. by rewrite Hskip.
  - erewrite bind_run; [done|].
    rewrite (bind_run _ _ _ _ _ (read_dict_run _ _ _ HO)).
    by apply override_loop_run.
Qed.

Lemma merge_aidr_metadata_run s data aidr_config D e0 E X :
  merge_pre (heap s) data aidr_config D e0 E X →
  let h := heap s in
  let m := fresh (dom h) in
  let e := fresh (dom (<[m := D]> h)) in
  let O := overrides_of h aidr_config in
  let M' := merged_metadata O (<["extra_info" := VDict e]> D) in
  let E' := merged_extra h O E in
  merge_aidr_metadata data aidr_config s =
  (Ret data, with_heap s (<[data := X ∪ M']> (<[m := M']> (<[e := E']> h)))).
Proof.
  intros [HD He0 HE HX Hcfg Hv] h m e O M' E'.
  change (heap s) with h in HD, HE, HX, Hcfg, Hv.
  change (overrides_of h aidr_config) with O in Hv.
  assert (Hm : ∀ l d, h !! l = Some d → l ≠ m) by (intros; by eapply fresh_loc_ne).
  assert (He : ∀ l d, h !! l = Some d → l ≠ e).
  { intros l d Hl. apply (fresh_loc_ne (<[m := D]> h) l d).
    rewrite lookup_insert_ne; [done|]. symmetry. by eapply Hm. }
  assert (Hme : m ≠ e).
  { apply (fresh_loc_ne (<[m := D]> h) m D), lookup_insert_eq. }
  unfold merge_aidr_metadata.
  (* metadata = DEFAULT_AIDR_METADATA.copy() *)
  erewrite bind_run; last first.
  { unfold dict_copy. rewrite (bind_run _ _ _ _ _ (read_dict_run _ _ _ HD)).
    apply new_dict_run. }
  fold h m.
  (* metadata["extra_info"] = DEFAULT_AIDR_METADATA["extra_info"].copy() *)
  erewrite bind_run; last first.
  { eapply dict_getitem_run; [|exact He0].
    rewrite heap_with_heap, lookup_insert_ne; [exact HD|].
    symmetry. by eapply Hm. }
  erewrite bind_run; last first.
  { unfold method_copy, dict_copy.
    erewrite bind_run; [done|].
    erewrite bind_run; [apply new_dict_run|].
    apply read_dict_run. rewrite heap_with_heap, lookup_insert_ne; [exact HE|].
    symmetry. by eapply Hm. }
  rewrite with_heap_with_heap, heap_with_heap. fold e.
  erewrite bind_run; last first.
  { eapply dict_setitem_run.
    rewrite heap_with_heap, lookup_insert_ne, lookup_insert_eq by done. done. }
  rewrite with_heap_with_heap, heap_with_heap.
  set (h3 := <[m := <["extra_info" := VDict e]> D]> (<[e := E]> (<[m := D]> h))).
  assert (Hframe : ∀ l d, h !! l = Some d → h3 !! l = Some d).
  { intros l d Hl. unfold h3.
    rewrite !lookup_insert_ne; [done|symmetry..]; by (eapply Hm || eapply He). }
  assert (HO : overrides_of h3 aidr_config = O).
  { unfold O, overrides_of. destruct aidr_config as [cfg|]; [|done].
    destruct (Hcfg cfg eq_refl) as [d Hd]. by rewrite Hd, (Hframe _ _ Hd). }
  (* the override loop *)
  rewrite (override_phase_run _ m e aidr_config (with_heap s h3)
             (<["extra_info" := VDict e]> D) E Hme); first last.
  { intros v. rewrite heap_with_heap, HO. intros HOv.
    destruct (Hv v HOv) as [d Hd]. split_and!; eauto. }
  { intros cfg Hc. destruct (Hcfg cfg Hc) as [d Hd].
    rewrite heap_with_heap. eauto. }
  { rewrite heap_with_heap. unfold h3.
    by rewrite lookup_insert_ne, lookup_insert_eq. }
  { apply lookup_insert_eq. }
  { rewrite heap_with_heap. apply lookup_insert_eq. }
  rewrite with_heap_with_heap, heap_with_heap, HO.
  assert (HE' : merged_extra h3 O E = E').
  { unfold E', merged_extra. destruct (O !! "extra_info") as [[| | | |v|]|] eqn:HOv; try done.
    destruct (Hv v eq_refl) as [d Hd]. by rewrite Hd, (Hframe _ _ Hd). }
  rewrite HE'. fold M'.
  (* the insertion loop *)
  erewrite bind_run; last first.
  { apply read_dict_run. rewrite heap_with_heap. apply lookup_insert_eq. }
  erewrite bind_run; last first.
  { apply (insertion_loop_run data M' _ X).
    rewrite heap_with_heap, !lookup_insert_ne; [by eapply Hframe|symmetry..];
      by (eapply Hm || eapply He). }
  rewrite with_heap_with_heap, heap_with_heap.
  unfold mret, M_ret. do 2 f_equal.
  apply map_eq. intros l. unfold h3. rewrite !lookup_insert.
  repeat case_decide; congruence.
Qed.

(** ** Properties of the metadata merger *)

(** The store after the merge, key by key. *)
Lemma merge_aidr_metadata_store s data aidr_config D e0 E X :
  merge_pre (heap s) data aidr_config D e0 E X →
  ∃ s' m e,
    merge_aidr_metadata data aidr_config s = (Ret data, s') ∧
    heap s !! m = None ∧ heap s !! e = None ∧ m ≠ e ∧
    heap s' !! data =
      Some (X ∪ merged_metadata (overrides_of (heap s) aidr_config)
                                (<["extra_info" := VDict e]> D)) ∧
    heap s' !! e = Some (merged_extra (heap s) (overrides_of (heap s) aidr_config) E) ∧
    ∀ l, l ≠ data → l ≠ m → l ≠ e → heap s' !! l = heap s !! l.
Proof.
  intros Hpre. pose proof (merge_aidr_metadata_run _ _ _ _ _ _ _ Hpre) as Hrun.
  simpl in Hrun. destruct Hpre as [HD He0 HE HX Hcfg Hv].
  set (m := fresh (dom (heap s))) in *.
  set (e := fresh (dom (<[m := D]> (heap s)))) in *.
  assert (Hm : heap s !! m = None) by apply fresh_loc_None.
  assert (He : (<[m := D]> (heap s)) !! e = None) by apply fresh_loc_None.
  assert (Hme : m ≠ e).
  { intros Heq. rewrite <- Heq, lookup_insert_eq in He. done. }
  rewrite lookup_insert_ne in He by done.
  eexists _, m, e. split; [exact Hrun|]. rewrite heap_with_heap.
  split_and!; try done.
  - apply lookup_insert_eq.
  - rewrite lookup_insert_ne, lookup_insert_ne, lookup_insert_eq; [done|done|].
    intros ->. congruence.
  - intros l ? ? ?. by rewrite !lookup_insert_ne.
Qed.

(** C1. The merge returns the target in which every default key that was
    absent holds its value, the override's if the override has the key and
    the default otherwise (for [extra_info], a new dictionary holding the
    default entries with the override's merged in), and in which every key
    that was present holds the value it had. *)
Theorem merge_inserts_absent_keeps_present s data aidr_config D e0 E X :
  merge_pre (heap s) data aidr_config D e0 E X →
  let O := overrides_of (heap s) aidr_config in
  ∃ s' X',
    merge_aidr_metadata data aidr_config s = (Ret data, s') ∧
    heap s' !! data = Some X' ∧
    (∀ k v, X !! k = Some v → X' !! k = Some v) ∧
    (∀ k v, D !! k = Some v → X !! k = None → k ≠ "extra_info" →
            X' !! k = Some (default v (O !! k))) ∧
    (X !! "extra_info" = None →
       match O !! "extra_info" with
       | Some (VDict v) =>
           ∃ e, X' !! "extra_info" = Some (VDict e) ∧ heap s !! e = None ∧
                heap s' !! e = Some (default ∅ (heap s !! v) ∪ E)
       | Some x => X' !! "extra_info" = Some x
       | None =>
           ∃ e, X' !! "extra_info" = Some (VDict e) ∧ heap s !! e = None ∧
                heap s' !! e = Some E
       end).
Proof.
  intros Hpre O.
  destruct (merge_aidr_metadata_store _ _ _ _ _ _ _ Hpre)
    as (s' & m & e & Hrun & Hm & He & Hme & Hdata & Hextra & _).
  fold O in Hdata, Hextra.
  eexists s', _. split_and!; [exact Hrun|exact Hdata|..].
  - intros k v Hk. by apply lookup_union_Some_l.
  - intros k v HDk HXk Hne. rewrite lookup_union_r by done.
    unfold merged_metadata.
    assert (Hgoal : ∀ O' : gmap string pyval, O' !! k = O !! k →
      (O' ∪ <["extra_info" := VDict e]> D) !! k = Some (default v (O !! k))).
    { intros O' HO'. rewrite lookup_union, HO', lookup_insert_ne, HDk by done.
      by destruct (O !! k). }
    destruct (O !! "extra_info") as [[]|]; apply Hgoal; try done.
    by rewrite lookup_delete_ne.
  - intros HXe. rewrite lookup_union_r by done.
    unfold merged_metadata, merged_extra in *.
    destruct (O !! "extra_info") as [x|] eqn:HOe.
    + destruct x; try (by rewrite lookup_union, HOe, lookup_insert_eq).
      exists e. split_and!; [|done..].
      by rewrite lookup_union, lookup_delete_eq, lookup_insert_eq.
    + exists e. split_and!; [|done..].
      by rewrite lookup_union, HOe, lookup_insert_eq.
Qed.

(** C6. When the target lacks [extra_info] and the override gives a
    dictionary for it, the result's [extra_info] is a new dictionary that
    holds every entry of the override's and every default entry whose key
    the override's lacks, and nothing else; for the override
    [extra_info: {a: 1}] it is the default entries plus [a] mapped to 1. *)
Theorem merge_extra_info_additive s data cfg D e0 E X O v V :
  merge_pre (heap s) data (Some cfg) D e0 E X →
  heap s !! cfg = Some O →
  O !! "extra_info" = Some (VDict v) →
  heap s !! v = Some V →
  X !! "extra_info" = None →
  ∃ s' X' e R,
    merge_aidr_metadata data (Some cfg) s = (Ret data, s') ∧
    heap s' !! data = Some X' ∧
    X' !! "extra_info" = Some (VDict e) ∧
    heap s' !! e = Some R ∧
    (∀ k x, V !! k = Some x → R !! k = Some x) ∧
    (∀ k x, E !! k = Some x → V !! k = None → R !! k = Some x) ∧
    (∀ k, is_Some (R !! k) → is_Some (V !! k) ∨ is_Some (E !! k)) ∧
    (V = {["a" := VInt 1]} → R = <["a" := VInt 1]> E).
Proof.
  intros Hpre HO HOe HV HXe.
  destruct (merge_aidr_metadata_store _ _ _ _ _ _ _ Hpre)
    as (s' & m & e & Hrun & Hm & He & Hme & Hdata & Hextra & _).
  unfold overrides_of in Hdata, Hextra. rewrite HO in Hdata, Hextra.
  simpl in Hdata, Hextra.
  unfold merged_extra in Hextra. rewrite HOe, HV in Hextra. simpl in Hextra.
  exists s', (X ∪ merged_metadata O (<["extra_info" := VDict e]> D)), e, (V ∪ E).
  split_and!; [exact Hrun|exact Hdata|..].
  - rewrite lookup_union_r by done. unfold merged_metadata. rewrite HOe.
    by rewrite lookup_union, lookup_delete_eq, lookup_insert_eq.
  - exact Hextra.
  - intros k x Hk. by apply lookup_union_Some_l.
  - intros k x Hk HVk. by rewrite lookup_union_r.
  - intros k [x Hx]. apply lookup_union_Some_raw in Hx as [?|[_ ?]]; eauto.
  - intros ->. by rewrite insert_union_singleton_l.
Qed.

(** C10, as the code has it. When the target is an object other than
    [DEFAULT_AIDR_METADATA] and its nested [extra_info], the merge leaves
    both of them, and every other dictionary of the store but the target,
    as they were; what it returns is the target itself, whose contents have
    grown in place. *)
Theorem merge_leaves_defaults_alone s data aidr_config D e0 E X :
  merge_pre (heap s) data aidr_config D e0 E X →
  data ≠ DEFAULT_AIDR_METADATA →
  data ≠ e0 →
  ∃ s' X',
    merge_aidr_metadata data aidr_config s = (Ret data, s') ∧
    heap s' !! DEFAULT_AIDR_METADATA = Some D ∧
    heap s' !! e0 = Some E ∧
    heap s' !! data = Some X' ∧ X ⊆ X' ∧
    (∀ l, is_Some (heap s !! l) → l ≠ data → heap s' !! l = heap s !! l).
Proof.
  intros Hpre Hd He0.
  destruct (merge_aidr_metadata_store _ _ _ _ _ _ _ Hpre)
    as (s' & m & e & Hrun & Hm & He & Hme & Hdata & Hextra & Hframe).
  assert (Hold : ∀ l, is_Some (heap s !! l) → l ≠ data →
                      heap s' !! l = heap s !! l).
  { intros l [d Hl] Hne. apply Hframe; [done|intros ->; congruence..]. }
  destruct Hpre as [HD HDe HE HX _ _].
  eexists s', _. split_and!; [exact Hrun|..|exact Hdata| |exact Hold].
  - rewrite Hold; eauto.
  - rewrite Hold; eauto.
  - apply map_union_subseteq_l.
Qed.

(** The target may be one of the module's own objects: merging into the
    default [extra_info] dictionary writes the metadata keys into it. *)
Lemma merge_into_default_extra_info_mutates_it :
  let s := initial_state "root" in
  let run := merge_aidr_metadata DEFAULT_extra_info None s in
  merge_pre (heap s) DEFAULT_extra_info None default_aidr_metadata
            DEFAULT_extra_info (default_extra_info "root") (default_extra_info "root") ∧
  run.1 = Ret DEFAULT_extra_info ∧
  heap s !! DEFAULT_extra_info ≫= (.!! "event_type") = None ∧
  heap run.2 !! DEFAULT_extra_info ≫= (.!! "event_type") = Some (VStr "input") ∧
  heap run.2 !! DEFAULT_extra_info ≠ heap s !! DEFAULT_extra_info.
Proof.
  split_and!.
  - by split.
  - by vm_compute.
  - by vm_compute.
  - by vm_compute.
  - intros Heq.
    assert (H : heap (merge_aidr_metadata DEFAULT_extra_info None (initial_state "root")).2
                  !! DEFAULT_extra_info ≫= (.!! "event_type")
                = heap (initial_state "root") !! DEFAULT_extra_info ≫= (.!! "event_type"))
      by (by rewrite Heq).
    vm_compute in H. discriminate.
Qed.

(** ** The HTTP wrappers *)

Section wrappers.
Context (net : network) (cfg : defaults).

Lemma requests_call_responded req s r :
  net (length (sent s)) = Responded r →
  requests_call net req s = (Ret r, record_request s req).
Proof. intros H. unfold requests_call. by rewrite H. Qed.

Lemma requests_call_failed req s e :
  net (length (sent s)) = Failed e →
  requests_call net req s = (Raise e, record_request s req).
Proof. intros H. unfold requests_call. by rewrite H. Qed.

Lemma pangea_get_api_responded endpoint token base_url s r :
  net (length (sent s)) = Responded r →
  pangea_get_api net cfg endpoint token base_url s =
  (Ret r, record_request s (get_request cfg endpoint token base_url)).
Proof.
  intros H. unfold pangea_get_api, try_except.
  by rewrite (bind_run _ _ _ _ _ (requests_call_responded _ _ _ H)).
Qed.

Lemma pangea_get_api_failed endpoint token base_url s e :
  net (length (sent s)) = Failed e →
  pangea_get_api net cfg endpoint token base_url s =
  (if is_Timeout (exn_cls e) then
     Ret (Some (create_error_response 408 "Request Timeout"))
   else if is_RequestException (exn_cls e) then
     Ret (Some (create_error_response 400 ("Bad Request: " +:+ exn_str e)))
   else Raise e,
   record_request s (get_request cfg endpoint token base_url)).
Proof.
  intros H. unfold pangea_get_api, try_except.
  unfold mbind at 1, M_bind. rewrite (requests_call_failed _ _ _ H).
  by destruct (is_Timeout (exn_cls e)), (is_RequestException (exn_cls e)).
Qed.

(** The GET wrapper returns or raises: it never runs out of fuel. *)
Lemma pangea_get_api_total endpoint token base_url s :
  (pangea_get_api net cfg endpoint token base_url s).1 ≠ OutOfFuel.
Proof.
  destruct (net (length (sent s))) as [r|e] eqn:H.
  - by rewrite (pangea_get_api_responded _ _ _ _ _ H).
  - rewrite (pangea_get_api_failed _ _ _ _ _ H).
    by destruct (is_Timeout (exn_cls e)), (is_RequestException (exn_cls e)).
Qed.
End wrappers.

(** ** The polling loop *)

Lemma eq_str_true v s : eq_str v s = true → v = JStr s.
Proof.
  destruct v; simpl; try discriminate.
  by intros ->%bool_decide_eq_true.
Qed.

Lemma read_status_run {B} (k : json → M B) r j s :
  status_of r = Some j →
  (body ← Response_json r; status_code ← json_getitem body "status"; k status_code) s
  = k j s.
Proof.
  unfold status_of, Response_json. destruct (_content r) as [[| | | | |fields]|]; try done.
  intros H. unfold mbind, M_bind, mret, M_ret, json_getitem. simpl. by rewrite H.
Qed.

Lemma read_status_raises r :
  status_of r = None →
  ∃ e, ∀ B (k : json → M B) s,
    (body ← Response_json r; status_code ← json_getitem body "status"; k status_code) s
    = (Raise e, s).
Proof.
  unfold status_of, Response_json.
  destruct (_content r) as [[| | | | |fields]|]; try (intros _; by eexists).
  intros H. eexists. intros B k s.
  unfold mbind, M_bind, mret, M_ret, json_getitem. simpl. by rewrite H.
Qed.

Lemma after_attempts_0 s req : after_attempts s req 0 0 = s.
Proof.
  destruct s. unfold after_attempts. simpl. f_equal; [apply app_nil_r|lia].
Qed.

Lemma after_attempts_step s req k n :
  mkState (heap (after_attempts s req k n))
          (sent (after_attempts s req k n) ++ [req])
          (slept (after_attempts s req k n) + 5)
  = after_attempts s req (S k) (S n).
Proof.
  unfold after_attempts. simpl. f_equal.
  - rewrite <- app_assoc. f_equal. symmetry. apply replicate_cons_app.
  - lia.
Qed.

Lemma after_attempts_last s req k n :
  record_request (after_attempts s req k n) req = after_attempts s req (S k) n.
Proof.
  unfold after_attempts, record_request. simpl. f_equal.
  rewrite <- app_assoc. f_equal. symmetry. apply replicate_cons_app.
Qed.

Lemma length_sent_after s req k n :
  length (sent (after_attempts s req k n)) = length (sent s) + k.
Proof. unfold after_attempts. simpl. by rewrite length_app, length_replicate. Qed.

Lemma count_get_app l1 l2 : count_get (l1 ++ l2) = count_get l1 + count_get l2.
Proof. unfold count_get. by rewrite filter_app, length_app. Qed.

Lemma count_get_replicate k req :
  req_method req = GET → count_get (replicate k req) = k.
Proof.
  intros H. unfold count_get. induction k as [|k IH]; [done|].
  simpl. rewrite filter_cons_True by done. simpl. by rewrite IH.
Qed.

Lemma count_get_after s req k n :
  req_method req = GET →
  count_get (sent (after_attempts s req k n)) = count_get (sent s) + k.
Proof.
  intros H. unfold after_attempts. cbn [sent].
  by rewrite count_get_app, count_get_replicate.
Qed.

Section polling.
Context (net : network) (cfg : defaults).
Context (request_id : string) (max_attempts : Z) (token base_url : string).


Lemma poll_loop_exit fuel status response counter s :
  eq_str status "Accepted" = false →
  poll_loop net cfg fuel request_id max_attempts token base_url
      status response counter s = (Ret (status, response), s).
Proof. intros H. destruct fuel; simpl; by rewrite H. Qed.

(** An attempt whose wrapper returns a response with a terminal status. *)
Lemma poll_attempt_terminal fuel response counter s r s1 j :
  pangea_request net cfg request_id token base_url s = (Ret (Some r), s1) →
  status_of r = Some j →
  eq_str j "Accepted" = false →
  poll_loop net cfg (S fuel) request_id max_attempts token base_url
      (JStr "Accepted") response counter s = (Ret (j, Some r), s1).
Proof.
  intros Hr Hj Hna. simpl.
  rewrite (bind_run _ _ _ _ _ Hr), (read_status_run _ _ _ _ Hj), Hna. simpl.
  by destruct (eq_str j "Success").
Qed.

(** An attempt answered "Accepted" when the counter has reached the
    ceiling. *)
Lemma poll_attempt_ceiling fuel response s r :
  net (length (sent s)) = Responded (Some r) →
  status_of r = Some (JStr "Accepted") →
  poll_loop net cfg (S fuel) request_id max_attempts token base_url
      (JStr "Accepted") response max_attempts s =
  (Ret (JStr "Accepted", Some r), record_request s (poll_get cfg request_id token base_url)).
Proof.
  intros Hr Hj. simpl. unfold pangea_request.
  rewrite (bind_run _ _ _ _ _ (pangea_get_api_responded _ _ _ _ _ _ _ Hr)).
  rewrite (read_status_run _ _ _ _ Hj). simpl.
  by rewrite bool_decide_eq_true_2.
Qed.

(** An attempt answered "Accepted" below the ceiling: sleep and go on. *)
Lemma poll_attempt_accepted fuel response counter s r :
  net (length (sent s)) = Responded (Some r) →
  status_of r = Some (JStr "Accepted") →
  counter ≠ max_attempts →
  poll_loop net cfg (S fuel) request_id max_attempts token base_url
      (JStr "Accepted") response counter s =
  poll_loop net cfg fuel request_id max_attempts token base_url
      (JStr "Accepted") (Some r) (counter + 1)%Z
       (mkState (heap s) (sent s ++ [poll_get cfg request_id token base_url]) (slept s + 5)).
Proof.
  intros Hr Hj Hc. simpl. unfold pangea_request.
  rewrite (bind_run _ _ _ _ _ (pangea_get_api_responded _ _ _ _ _ _ _ Hr)).
  rewrite (read_status_run _ _ _ _ Hj). simpl.
  by rewrite bool_decide_eq_false_2.
Qed.

(** [k] attempts in a row answered "Accepted", all below the ceiling. *)
Lemma poll_loop_accepted_run (rs : nat → Response) k :
  ∀ fuel response counter s,
    (∀ i, i < k → net (length (sent s) + i) = Responded (Some (rs i))) →
    (∀ i, i < k → status_of (rs i) = Some (JStr "Accepted")) →
    (∀ i, i < k → (counter + Z.of_nat i)%Z ≠ max_attempts) →
    poll_loop net cfg (k + fuel) request_id max_attempts token base_url
        (JStr "Accepted") response counter s =
    poll_loop net cfg fuel request_id max_attempts token base_url
        (JStr "Accepted") (held_response response rs k)
         (counter + Z.of_nat k)%Z (after_attempts s (poll_get cfg request_id token base_url) k k).
Proof.
  induction k as [|k IH]; intros fuel response counter s Hnet Hst Hc.
  - by rewrite after_attempts_0, Z.add_0_r.
  - replace (S k + fuel) with (k + S fuel) by lia.
    rewrite IH by (intros; (apply Hnet || apply Hst || apply Hc); lia).
    rewrite (poll_attempt_accepted _ _ _ _ (rs k)).
    + rewrite after_attempts_step. simpl held_response.
      by replace (counter + Z.of_nat k + 1)%Z with (counter + Z.of_nat (S k))%Z by lia.
    + rewrite length_sent_after. apply Hnet. lia.
    + apply Hst. lia.
    + apply Hc. lia.
Qed.

(** One attempt either ends the loop, by a return or by an exception, or
    is answered "Accepted" below the ceiling and leads to the next. *)
Lemma poll_attempt_cases response counter s :
  (∃ res, res ≠ OutOfFuel ∧
     ∀ fuel, poll_loop net cfg (S fuel) request_id max_attempts token base_url
                 (JStr "Accepted") response counter s
             = (res, record_request s (poll_get cfg request_id token base_url)))
  ∨ (counter ≠ max_attempts ∧ ∃ r,
     ∀ fuel, poll_loop net cfg (S fuel) request_id max_attempts token base_url
                 (JStr "Accepted") response counter s
             = poll_loop net cfg fuel request_id max_attempts token base_url
                   (JStr "Accepted") (Some r) (counter + 1)%Z
                    (mkState (heap s) (sent s ++ [poll_get cfg request_id token base_url])
                             (slept s + 5))).
Proof.
  destruct (net (length (sent s))) as [[r|]|e] eqn:Hnet.
  - destruct (status_of r) as [j|] eqn:Hj.
    + destruct (eq_str j "Accepted") eqn:Hacc.
      * apply eq_str_true in Hacc. subst j.
        destruct (decide (counter = max_attempts)) as [->|Hc].
        -- left. eexists. split; [|intros; by apply poll_attempt_ceiling]. done.
        -- right. split; [done|]. exists r. intros. by apply poll_attempt_accepted.
      * left. eexists. split; [|intros fuel; eapply poll_attempt_terminal; [|exact Hj|exact Hacc]].
        { done. }
        unfold pangea_request. by apply pangea_get_api_responded.
    + left. destruct (read_status_raises r Hj) as [e He].
      exists (Raise e). split; [done|]. intros fuel. simpl. unfold pangea_request.
      rewrite (bind_run _ _ _ _ _ (pangea_get_api_responded _ _ _ _ _ _ _ Hnet)).
      apply He.
  - left. eexists. split; [|intros fuel; simpl; unfold pangea_request;
      by rewrite (bind_run _ _ _ _ _ (pangea_get_api_responded _ _ _ _ _ _ _ Hnet))].
    done.
  - pose proof (pangea_get_api_failed net cfg ("/request/" +:+ request_id)
                  token base_url s e Hnet) as Hget.
    left. destruct (is_Timeout (exn_cls e)); [|destruct (is_RequestException (exn_cls e))].
    + eexists. split; [|intros fuel; by eapply poll_attempt_terminal]. done.
    + eexists. split; [|intros fuel; by eapply poll_attempt_terminal]. done.
    + eexists. split; [|intros fuel; simpl; unfold pangea_request, mbind, M_bind;
        by rewrite Hget]. done.
Qed.

(** The loop ends within the attempts left under the ceiling, whatever
    the network answers. *)
Lemma poll_loop_terminates n :
  ∀ status response counter s,
    (counter ≤ max_attempts)%Z →
    Z.to_nat (max_attempts - counter) = n →
    ∃ res s' k,
      res ≠ OutOfFuel ∧ k ≤ S n ∧
      sent s' = sent s ++ replicate k (poll_get cfg request_id token base_url) ∧
      ∀ fuel, S n ≤ fuel → poll_loop net cfg fuel request_id max_attempts token base_url
                               status response counter s = (res, s').
Proof.
  induction n as [|n IH]; intros status response counter s Hle Hn.
  - destruct (eq_str status "Accepted") eqn:Hst.
    + apply eq_str_true in Hst. subst status.
      destruct (poll_attempt_cases response counter s) as [(res & Hres & Hrun)|[Hc _]];
        [|lia].
      exists res, (record_request s (poll_get cfg request_id token base_url)), 1.
      split_and!; [done|lia|done|].
      intros [|fuel] Hf; [lia|]. apply Hrun.
    + exists (Ret (status, response)), s, 0. split_and!; [done|lia|..].
      * simpl. by rewrite app_nil_r.
      * intros. by apply poll_loop_exit.
  - destruct (eq_str status "Accepted") eqn:Hst.
    + apply eq_str_true in Hst. subst status.
      destruct (poll_attempt_cases response counter s)
        as [(res & Hres & Hrun)|[Hc [r Hrun]]].
      * exists res, (record_request s (poll_get cfg request_id token base_url)), 1.
        split_and!; [done|lia|done|].
        intros [|fuel] Hf; [lia|]. apply Hrun.
      * destruct (IH (JStr "Accepted") (Some r) (counter + 1)%Z
                    (mkState (heap s) (sent s ++ [poll_get cfg request_id token base_url])
                             (slept s + 5)))
          as (res & s' & k & Hres & Hk & Hsent & Hloop); [lia|lia|].
        exists res, s', (S k). split_and!; [done|lia|..].
        -- rewrite Hsent. simpl. by rewrite <- app_assoc.
        -- intros [|fuel] Hf; [lia|]. rewrite Hrun. apply Hloop. lia.
    + exists (Ret (status, response)), s, 0. split_and!; [done|lia|..].
      * simpl. by rewrite app_nil_r.
      * intros. by apply poll_loop_exit.
Qed.
End polling.

(** ** Properties of the polling loop *)

(** C3. With [max_attempts = 12], when the first eleven GET responses carry
    status "Accepted" and the twelfth carries "Success", [poll_request]
    issues exactly twelve GET requests and returns
    [("Success", twelfth response)]. *)
Theorem poll_request_success_on_twelfth
    (net : network) (cfg : defaults) (request_id : string) (verbose : bool)
    (token base_url : string) (rs : nat → Response) (s : state) (fuel : nat) :
  (∀ i, i < 12 → net (length (sent s) + i) = Responded (Some (rs i))) →
  (∀ i, i < 11 → status_of (rs i) = Some (JStr "Accepted")) →
  status_of (rs 11) = Some (JStr "Success") →
  12 ≤ fuel →
  ∃ s',
    poll_request net cfg fuel request_id 12 verbose token base_url s
      = (Ret (JStr "Success", Some (rs 11)), s') ∧
    sent s' = sent s ++ replicate 12 (poll_get cfg request_id token base_url) ∧
    count_get (sent s') = count_get (sent s) + 12.
Proof.
  intros Hnet Hacc Hsucc Hfuel.
  exists (after_attempts s (poll_get cfg request_id token base_url) 12 11).
  split; [|split; [done|]].
  - unfold poll_request.
    replace fuel with (11 + S (fuel - 12)) by lia.
    rewrite (poll_loop_accepted_run _ _ _ _ _ _ rs 11)
      by (intros; (apply Hnet || apply Hacc || idtac); lia).
    rewrite <- (after_attempts_last _ _ 11 11).
    eapply poll_attempt_terminal; [|exact Hsucc|done].
    unfold pangea_request. apply pangea_get_api_responded.
    rewrite length_sent_after. apply Hnet. lia.
  - by apply count_get_after.
Qed.

(** C4. For [max_attempts >= 1], when every GET response carries status
    "Accepted", [poll_request] raises nothing, issues exactly
    [max_attempts] GET requests and returns ["Accepted"] with the last
    response received. *)
Theorem poll_request_all_accepted
    (net : network) (cfg : defaults) (request_id : string) (max_attempts : Z)
    (verbose : bool) (token base_url : string) (rs : nat → Response)
    (s : state) (fuel : nat) :
  (1 ≤ max_attempts)%Z →
  (∀ i, i < Z.to_nat max_attempts →
        net (length (sent s) + i) = Responded (Some (rs i))) →
  (∀ i, i < Z.to_nat max_attempts → status_of (rs i) = Some (JStr "Accepted")) →
  Z.to_nat max_attempts ≤ fuel →
  ∃ s',
    poll_request net cfg fuel request_id max_attempts verbose token base_url s
      = (Ret (JStr "Accepted", Some (rs (Z.to_nat max_attempts - 1))), s') ∧
    sent s' = sent s ++ replicate (Z.to_nat max_attempts)
                                   (poll_get cfg request_id token base_url) ∧
    count_get (sent s') = count_get (sent s) + Z.to_nat max_attempts.
Proof.
  intros Hmax Hnet Hacc Hfuel.
  set (n := Z.to_nat max_attempts) in *.
  destruct n as [|k] eqn:Hn; [lia|].
  exists (after_attempts s (poll_get cfg request_id token base_url) (S k) k).
  split; [|split; [done|]].
  - unfold poll_request.
    replace fuel with (k + S (fuel - S k)) by lia.
    rewrite (poll_loop_accepted_run _ _ _ _ _ _ rs k)
      by (intros; (apply Hnet || apply Hacc || idtac); lia).
    rewrite <- (after_attempts_last _ _ k k).
    replace (1 + Z.of_nat k)%Z with max_attempts by lia.
    replace (S k - 1) with k by lia.
    apply poll_attempt_ceiling.
    + rewrite length_sent_after. apply Hnet. lia.
    + apply Hacc. lia.
  - by apply count_get_after.
Qed.

(** C5. When the first GET response carries a status string that is
    neither "Accepted" nor "Success", [poll_request] issues exactly one GET
    request and returns that status with that response. *)
Theorem poll_request_stops_on_other_status
    (net : network) (cfg : defaults) (request_id : string) (max_attempts : Z)
    (verbose : bool) (token base_url : string) (r : Response) (st : string)
    (s : state) (fuel : nat) :
  st ≠ "Accepted" → st ≠ "Success" →
  net (length (sent s)) = Responded (Some r) →
  status_of r = Some (JStr st) →
  1 ≤ fuel →
  ∃ s',
    poll_request net cfg fuel request_id max_attempts verbose token base_url s
      = (Ret (JStr st, Some r), s') ∧
    sent s' = sent s ++ [poll_get cfg request_id token base_url] ∧
    count_get (sent s') = count_get (sent s) + 1.
Proof.
  intros Hna _ Hnet Hst Hfuel.
  exists (record_request s (poll_get cfg request_id token base_url)).
  split; [|split; [done|]].
  - unfold poll_request. destruct fuel as [|fuel]; [lia|].
    eapply poll_attempt_terminal; [|exact Hst|].
    + unfold pangea_request. by apply pangea_get_api_responded.
    + simpl. by apply bool_decide_eq_false_2.
  - simpl. by rewrite count_get_app.
Qed.

(** C8. For [max_attempts >= 1] and any behaviour of the network,
    [poll_request] terminates, by a return or by an exception it lets
    through, having issued at most [max_attempts] GET requests: from
    [max_attempts] units of fuel on, the run no longer depends on the fuel
    and is not a run out of fuel. *)
Theorem poll_request_terminates
    (net : network) (cfg : defaults) (request_id : string) (max_attempts : Z)
    (verbose : bool) (token base_url : string) (s : state) :
  (1 ≤ max_attempts)%Z →
  ∃ res s' k,
    res ≠ OutOfFuel ∧
    k ≤ Z.to_nat max_attempts ∧
    sent s' = sent s ++ replicate k (poll_get cfg request_id token base_url) ∧
    count_get (sent s') = count_get (sent s) + k ∧
    ∀ fuel, Z.to_nat max_attempts ≤ fuel →
      poll_request net cfg fuel request_id max_attempts verbose token base_url s
      = (res, s').
Proof.
  intros Hmax.
  destruct (poll_loop_terminates net cfg request_id max_attempts token base_url
              (Z.to_nat (max_attempts - 1)) (JStr "Accepted") None 1%Z s)
    as (res & s' & k & Hres & Hk & Hsent & Hrun); [lia|done|].
  exists res, s', k. split_and!; [done|lia|done|..].
  - by rewrite Hsent, count_get_app, count_get_replicate.
  - intros fuel Hfuel. apply Hrun. lia.
Qed.

(** Below the ceiling's range the counter never meets [max_attempts]: with
    [max_attempts < 1] and a network that always answers "Accepted", no
    amount of fuel lets the loop end. *)
Lemma poll_loop_unbounded
    (net : network) (cfg : defaults) (request_id : string) (max_attempts : Z)
    (token base_url : string) (r : Response) (fuel : nat) :
  (∀ i, net i = Responded (Some r)) →
  status_of r = Some (JStr "Accepted") →
  ∀ response counter s,
    (max_attempts < counter)%Z →
    (poll_loop net cfg fuel request_id max_attempts token base_url
               (JStr "Accepted") response counter s).1 = OutOfFuel.
Proof.
  intros Hnet Hst. induction fuel as [|fuel IH]; intros response counter s Hc; [done|].
  rewrite (poll_attempt_accepted _ _ _ _ _ _ _ _ _ _ r) by (done || lia).
  apply IH. lia.
Qed.

(** C9. When a GET issued during polling, after [k] attempts answered
    "Accepted", ends in a timeout or another request-level failure,
    [poll_request] stops on that attempt and returns the integer 408 or 400
    of the synthesized body's [status] field, which equals neither
    "Accepted" nor "Success", paired with the synthesized response. *)
Theorem poll_request_stops_on_request_failure
    (net : network) (cfg : defaults) (request_id : string) (max_attempts : Z)
    (verbose : bool) (token base_url : string) (rs : nat → Response)
    (k : nat) (e : exn) (s : state) (fuel : nat) :
  (∀ i, i < k → net (length (sent s) + i) = Responded (Some (rs i))) →
  (∀ i, i < k → status_of (rs i) = Some (JStr "Accepted")) →
  (max_attempts < 1 ∨ Z.of_nat k < max_attempts)%Z →
  net (length (sent s) + k) = Failed e →
  is_RequestException (exn_cls e) = true →
  S k ≤ fuel →
  let code := if is_Timeout (exn_cls e) then 408%Z else 400%Z in
  let message := if is_Timeout (exn_cls e) then "Request Timeout"
                 else "Bad Request: " +:+ exn_str e in
  poll_request net cfg fuel request_id max_attempts verbose token base_url s
    = (Ret (JInt code, Some (create_error_response code message)),
       after_attempts s (poll_get cfg request_id token base_url) (S k) k) ∧
  status_of (create_error_response code message) = Some (JInt code) ∧
  eq_str (JInt code) "Accepted" = false ∧
  eq_str (JInt code) "Success" = false.
Proof.
  intros Hnet Hacc Hissued Hfail Hreq Hfuel code message.
  split; [|done].
  unfold poll_request.
  replace fuel with (k + S (fuel - S k)) by lia.
  rewrite (poll_loop_accepted_run _ _ _ _ _ _ rs k) by (done || (intros; lia)).
  rewrite <- (after_attempts_last _ _ k k).
  eapply poll_attempt_terminal; [|done..].
  unfold pangea_request.
  rewrite (pangea_get_api_failed _ _ _ _ _ _ e)
    by (by rewrite length_sent_after).
  unfold code, message. rewrite Hreq.
  by destruct (is_Timeout (exn_cls e)).
Qed.

(** ** Properties of the HTTP wrappers *)

(** What [pangea_post_api] returns, by the outcome of the HTTP call, once
    the metadata step has gone through. *)
Lemma pangea_post_api_run
    (net : network) (cfg : defaults) (service endpoint : string) (data : loc)
    (skip_cache : bool) (token base_url : string) (aidr_config : option loc)
    (s : state) D e0 E X :
  (service = "aidr" → merge_pre (heap s) data aidr_config D e0 E X) →
  ∃ h',
    pangea_post_api net cfg service endpoint data skip_cache token base_url
                    aidr_config s =
    (match net (length (sent s)) with
     | Responded (Some r) => Ret r
     | Responded None =>
         Ret (create_error_response 500 "Internal server error: failed to fetch data")
     | Failed e =>
         if is_Timeout (exn_cls e) then
           Ret (create_error_response 408 "Request Timeout")
         else if is_RequestException (exn_cls e) then
           Ret (create_error_response 400 ("Bad Request: " +:+ exn_str e))
         else Raise e
     end,
     record_request (with_heap s h')
       (post_request cfg endpoint data skip_cache token base_url)).
Proof.
  intros Hpre.
  assert (∃ h', (if bool_decide (service = "aidr")
                 then merge_aidr_metadata data aidr_config
                 else mret data) s = (Ret data, with_heap s h')) as [h' Hmerge].
  { case_bool_decide as Hs.
    - eexists. apply (merge_aidr_metadata_run s data aidr_config D e0 E X (Hpre Hs)).
    - exists (heap s). by rewrite with_heap_id. }
  exists h'. unfold pangea_post_api, try_except.
  unfold mbind at 1, M_bind. rewrite Hmerge.
  unfold mbind, M_bind, requests_call. simpl.
  destruct (net (length (sent s))) as [[r|]|e]; try done.
  by destruct (is_Timeout (exn_cls e)), (is_RequestException (exn_cls e)).
Qed.

(** C2. Both wrappers turn a timeout of the HTTP call into a returned
    response with status code 408 and body
    [{status: 408, message: "Request Timeout"}], any other request-level
    failure into a returned response with status code 400 whose message
    embeds the exception text, and return a response the call produced as
    it is. *)
Theorem wrappers_return_responses
    (net : network) (cfg : defaults) (service endpoint : string) (data : loc)
    (skip_cache : bool) (token base_url : string) (aidr_config : option loc)
    (get_endpoint : string) (s : state) D e0 E X :
  (service = "aidr" → merge_pre (heap s) data aidr_config D e0 E X) →
  let post := pangea_post_api net cfg service endpoint data skip_cache token
                              base_url aidr_config s in
  let get := pangea_get_api net cfg get_endpoint token base_url s in
  (∀ e, net (length (sent s)) = Failed e → is_Timeout (exn_cls e) = true →
     ∃ r, post.1 = Ret r ∧ get.1 = Ret (Some r) ∧
          status_code r = 408%Z ∧
          _content r = Encoded (JObj [("status", JInt 408);
                                      ("message", JStr "Request Timeout")])) ∧
  (∀ e, net (length (sent s)) = Failed e → is_Timeout (exn_cls e) = false →
     is_RequestException (exn_cls e) = true →
     ∃ r, post.1 = Ret r ∧ get.1 = Ret (Some r) ∧
          status_code r = 400%Z ∧
          _content r = Encoded (JObj [("status", JInt 400);
                                      ("message", JStr ("Bad Request: " +:+ exn_str e))])) ∧
  (∀ r, net (length (sent s)) = Responded (Some r) →
     post.1 = Ret r ∧ get.1 = Ret (Some r)).
Proof.
  intros Hpre post get.
  destruct (pangea_post_api_run net cfg service endpoint data skip_cache token
              base_url aidr_config s D e0 E X Hpre) as [h' Hpost].
  fold post in Hpost. split_and!.
  - intros e Hnet Ht. eexists. unfold get.
    rewrite Hpost, (pangea_get_api_failed _ _ _ _ _ _ _ Hnet), Hnet, Ht. done.
  - intros e Hnet Ht Hr. eexists. unfold get.
    rewrite Hpost, (pangea_get_api_failed _ _ _ _ _ _ _ Hnet), Hnet, Ht, Hr. done.
  - intros r Hnet. unfold get.
    rewrite Hpost, (pangea_get_api_responded _ _ _ _ _ _ _ Hnet), Hnet. done.
Qed.

(** C7. When the HTTP call yields no response object, [pangea_post_api]
    returns a synthesized response with status code 500 whose message
    begins with "Internal server error", while [pangea_get_api] returns the
    absent response as it is. *)
Theorem missing_response_post_500_get_none
    (net : network) (cfg : defaults) (service endpoint : string) (data : loc)
    (skip_cache : bool) (token base_url : string) (aidr_config : option loc)
    (get_endpoint : string) (s : state) D e0 E X :
  (service = "aidr" → merge_pre (heap s) data aidr_config D e0 E X) →
  net (length (sent s)) = Responded None →
  (∃ r message,
     (pangea_post_api net cfg service endpoint data skip_cache token base_url
                      aidr_config s).1 = Ret r ∧
     status_code r = 500%Z ∧
     _content r = Encoded (JObj [("status", JInt 500); ("message", JStr message)]) ∧
     String.prefix "Internal server error" message = true) ∧
  (pangea_get_api net cfg get_endpoint token base_url s).1 = Ret None.
Proof.
  intros Hpre Hnet.
  destruct (pangea_post_api_run net cfg service endpoint data skip_cache token
              base_url aidr_config s D e0 E X Hpre) as [h' Hpost].
  split.
  - do 2 eexists. rewrite Hpost, Hnet. split_and!; done.
  - by rewrite (pangea_get_api_responded _ _ _ _ _ _ _ Hnet).
Qed.

(** ** The properties on the sample inputs *)

Lemma sample_merge_pre :
  merge_pre (heap sample_state) 2 (Some 3) default_aidr_metadata
            DEFAULT_extra_info (default_extra_info "root") sample_payload.
Proof.
  split; try reflexivity.
  - intros cfg [= <-]. by eexists.
  - intros v Hv. vm_compute in Hv. injection Hv as <-. by eexists.
Defined.

Lemma merge_inserts_absent_keeps_present_witness :
  ∃ s' X',
    merge_aidr_metadata 2 (Some 3) sample_state = (Ret 2, s') ∧
    heap s' !! 2 = Some X' ∧
    X' !! "app_id" = Some (VStr "mine") ∧
    X' !! "model" = Some (VStr "m1") ∧
    X' !! "event_type" = Some (VStr "input").
Proof.
  destruct (merge_inserts_absent_keeps_present sample_state 2 (Some 3)
              default_aidr_metadata DEFAULT_extra_info (default_extra_info "root")
              sample_payload sample_merge_pre)
    as (s' & X' & Hrun & HX' & Hkeep & Hins & _).
  exists s', X'. split_and!; [exact Hrun|exact HX'|..].
  - apply Hkeep. reflexivity.
  - apply (Hins "model" (VStr "GPT-6-super")); [reflexivity|reflexivity|discriminate].
  - apply (Hins "event_type" (VStr "input")); [reflexivity|reflexivity|discriminate].
Defined.

Lemma merge_extra_info_additive_witness :
  ∃ s' X' e R,
    merge_aidr_metadata 2 (Some 3) sample_state = (Ret 2, s') ∧
    heap s' !! 2 = Some X' ∧
    X' !! "extra_info" = Some (VDict e) ∧
    heap s' !! e = Some R ∧
    R = <["a" := VInt 1]> (default_extra_info "root").
Proof.
  destruct (merge_extra_info_additive sample_state 2 3
              default_aidr_metadata DEFAULT_extra_info (default_extra_info "root")
              sample_payload sample_overrides 4 sample_extra sample_merge_pre)
    as (s' & X' & e & R & Hrun & HX' & He & HR & _ & _ & _ & Ha);
    [reflexivity..|].
  exists s', X', e, R. split_and!; [exact Hrun|exact HX'|exact He|exact HR|].
  apply Ha. reflexivity.
Defined.

Lemma merge_leaves_defaults_alone_witness :
  ∃ s' X',
    merge_aidr_metadata 2 (Some 3) sample_state = (Ret 2, s') ∧
    heap s' !! DEFAULT_AIDR_METADATA = Some default_aidr_metadata ∧
    heap s' !! DEFAULT_extra_info = Some (default_extra_info "root") ∧
    heap s' !! 2 = Some X' ∧ sample_payload ⊆ X' ∧
    (∀ l, is_Some (heap sample_state !! l) → l ≠ 2 →
          heap s' !! l = heap sample_state !! l).
Proof.
  apply (merge_leaves_defaults_alone sample_state 2 (Some 3)
           default_aidr_metadata DEFAULT_extra_info (default_extra_info "root")
           sample_payload sample_merge_pre); discriminate.
Defined.

Lemma wrappers_return_responses_witness :
  (pangea_post_api net_read_timeout sample_defaults "aidr" "/v1/guard" 2 true
                   "tok" "https://aidr.example" (Some 3) sample_state).1
  = Ret (create_error_response 408 "Request Timeout") ∧
  (pangea_get_api net_read_timeout sample_defaults "/request/r1"
                  "tok" "https://aidr.example" sample_state).1
  = Ret (Some (create_error_response 408 "Request Timeout")).
Proof.
  destruct (wrappers_return_responses net_read_timeout sample_defaults
              "aidr" "/v1/guard" 2 true "tok" "https://aidr.example" (Some 3)
              "/request/r1" sample_state
              default_aidr_metadata DEFAULT_extra_info (default_extra_info "root")
              sample_payload (λ _, sample_merge_pre))
    as (Htimeout & _ & _).
  destruct (Htimeout (Exn ReadTimeout "read timed out") eq_refl eq_refl)
    as (r & Hpost & Hget & Hcode & Hbody).
  destruct r as [c b]. simpl in Hcode, Hbody. subst c b.
  split; [exact Hpost|exact Hget].
Defined.

Lemma missing_response_post_500_get_none_witness :
  (∃ r message,
     (pangea_post_api net_no_response sample_defaults "aidr" "/v1/guard" 2 false
                      "tok" "https://aidr.example" (Some 3) sample_state).1 = Ret r ∧
     status_code r = 500%Z ∧
     _content r = Encoded (JObj [("status", JInt 500); ("message", JStr message)]) ∧
     String.prefix "Internal server error" message = true) ∧
  (pangea_get_api net_no_response sample_defaults "/request/r1"
                  "tok" "https://aidr.example" sample_state).1 = Ret None.
Proof.
  apply (missing_response_post_500_get_none net_no_response sample_defaults
           "aidr" "/v1/guard" 2 false "tok" "https://aidr.example" (Some 3)
           "/request/r1" sample_state
           default_aidr_metadata DEFAULT_extra_info (default_extra_info "root")
           sample_payload (λ _, sample_merge_pre)).
  reflexivity.
Defined.

Lemma poll_request_success_on_twelfth_witness :
  ∃ s',
    poll_request net_success_on_twelfth sample_defaults 12 "r1" 12 false
                 "tok" "https://aidr.example" (initial_state "root")
      = (Ret (JStr "Success", Some success_response), s') ∧
    sent s' = replicate 12 (poll_get sample_defaults "r1" "tok" "https://aidr.example") ∧
    count_get (sent s') = 12.
Proof.
  apply (poll_request_success_on_twelfth net_success_on_twelfth sample_defaults
           "r1" false "tok" "https://aidr.example" eleven_accepted_then_success
           (initial_state "root") 12).
  - intros i Hi. reflexivity.
  - intros i Hi. unfold eleven_accepted_then_success.
    destruct (Nat.ltb_spec i 11); [reflexivity|lia].
  - reflexivity.
  - lia.
Defined.

Lemma poll_request_all_accepted_witness :
  ∃ s',
    poll_request net_always_accepted sample_defaults 3 "r1" 3 false
                 "tok" "https://aidr.example" (initial_state "root")
      = (Ret (JStr "Accepted", Some accepted_response), s') ∧
    sent s' = replicate 3 (poll_get sample_defaults "r1" "tok" "https://aidr.example") ∧
    count_get (sent s') = 3.
Proof.
  apply (poll_request_all_accepted net_always_accepted sample_defaults
           "r1" 3 false "tok" "https://aidr.example" (λ _, accepted_response)
           (initial_state "root") 3).
  - lia.
  - intros i Hi. reflexivity.
  - intros i Hi. reflexivity.
  - simpl. lia.
Defined.

Lemma poll_request_stops_on_other_status_witness :
  ∃ s',
    poll_request net_failure sample_defaults 12 "r1" 12 false
                 "tok" "https://aidr.example" (initial_state "root")
      = (Ret (JStr "ValidationError", Some failure_response), s') ∧
    sent s' = [poll_get sample_defaults "r1" "tok" "https://aidr.example"] ∧
    count_get (sent s') = 1.
Proof.
  apply (poll_request_stops_on_other_status net_failure sample_defaults
           "r1" 12 false "tok" "https://aidr.example" failure_response
           "ValidationError" (initial_state "root") 12).
  - discriminate.
  - discriminate.
  - reflexivity.
  - reflexivity.
  - lia.
Defined.

Lemma poll_request_terminates_witness :
  ∃ res s' k,
    res ≠ OutOfFuel ∧
    k ≤ 3 ∧
    sent s' = replicate k (poll_get sample_defaults "r1" "tok" "https://aidr.example") ∧
    count_get (sent s') = k ∧
    ∀ fuel, 3 ≤ fuel →
      poll_request net_refused_on_third sample_defaults fuel "r1" 3 false
                   "tok" "https://aidr.example" (initial_state "root")
      = (res, s').
Proof.
  apply (poll_request_terminates net_refused_on_third sample_defaults
           "r1" 3 false "tok" "https://aidr.example" (initial_state "root")).
  lia.
Defined.

Lemma poll_request_stops_on_request_failure_witness :
  poll_request net_refused_on_third sample_defaults 12 "r1" 12 false
               "tok" "https://aidr.example" (initial_state "root")
    = (Ret (JInt 400,
            Some (create_error_response 400 "Bad Request: connection refused")),
       after_attempts (initial_state "root")
         (poll_get sample_defaults "r1" "tok" "https://aidr.example") 3 2) ∧
  status_of (create_error_response 400 "Bad Request: connection refused")
    = Some (JInt 400) ∧
  eq_str (JInt 400) "Accepted" = false ∧
  eq_str (JInt 400) "Success" = false.
Proof.
  apply (poll_request_stops_on_request_failure net_refused_on_third sample_defaults
           "r1" 12 false "tok" "https://aidr.example" (λ _, accepted_response)
           2 (Exn ConnectionError "connection refused") (initial_state "root") 12).
  - intros i Hi. unfold net_refused_on_third. simpl.
    destruct (Nat.ltb_spec i 2); [reflexivity|lia].
  - intros i Hi. reflexivity.
  - lia.
  - reflexivity.
  - reflexivity.
  - lia.
Defined.

(** * Further properties *)

Set Warnings "-clear-no-such-hyp".

(** ** The metadata merger *)

Lemma dom_merged_metadata (O D : gmap string pyval) x :
  is_Some (D !! "extra_info") →
  dom (merged_metadata O (<["extra_info" := x]> D)) = dom O ∪ dom D.
Proof.
  intros HD%elem_of_dom. unfold merged_metadata.
  assert (Hcase : dom (O ∪ <["extra_info" := x]> D) = dom O ∪ dom D).
  { rewrite dom_union_L, dom_insert_L. set_solver. }
  destruct (O !! "extra_info") as [[]|]; try exact Hcase.
  rewrite dom_union_L, dom_delete_L, dom_insert_L.
  apply set_eq. intros k. destruct (decide (k = "extra_info")); set_solver.
Qed.

Lemma union_absorb (A B : gmap string pyval) : dom B ⊆ dom A → A ∪ B = A.
Proof.
  intros Hsub. apply map_eq. intros k. rewrite lookup_union.
  destruct (A !! k) as [a|] eqn:HA; [by destruct (B !! k)|].
  apply not_elem_of_dom in HA.
  assert (HB : k ∉ dom B) by set_solver.
  apply not_elem_of_dom in HB. by rewrite HB.
Qed.

(** X1. An empty override mapping is the same as no override mapping: the
    truth test on [aidr_config] skips the override loop for both. *)
Theorem merge_empty_override_as_none s data cfg D e0 E X :
  merge_pre (heap s) data None D e0 E X →
  heap s !! cfg = Some ∅ →
  merge_aidr_metadata data (Some cfg) s = merge_aidr_metadata data None s.
Proof.
  intros Hpre Hcfg.
  assert (Hpre' : merge_pre (heap s) data (Some cfg) D e0 E X).
  { destruct Hpre as [HD He0 HE HX _ _]. split; try done.
    - intros c [= <-]. eauto.
    - intros v. unfold overrides_of. rewrite Hcfg. simpl. by rewrite lookup_empty. }
  rewrite (merge_aidr_metadata_run _ _ _ _ _ _ _ Hpre).
  rewrite (merge_aidr_metadata_run _ _ _ _ _ _ _ Hpre').
  unfold overrides_of. by rewrite Hcfg.
Qed.

(** X2. Every entry of the override mapping whose key the target lacks ends up
    in the target with the override's own value, whether or not the key is a
    default key; the one exception is an [extra_info] that is a dictionary,
    which is merged instead. *)
Theorem merge_override_entries_pass_through s data aidr_config D e0 E X k v :
  merge_pre (heap s) data aidr_config D e0 E X →
  overrides_of (heap s) aidr_config !! k = Some v →
  X !! k = None →
  bool_decide (k = "extra_info") && isinstance_dict v = false →
  ∃ s' X',
    merge_aidr_metadata data aidr_config s = (Ret data, s') ∧
    heap s' !! data = Some X' ∧
    X' !! k = Some v.
Proof.
  intros Hpre HO HX Hc.
  destruct (merge_aidr_metadata_store _ _ _ _ _ _ _ Hpre)
    as (s' & m & e & Hrun & _ & _ & _ & Hdata & _).
  eexists s', _. split_and!; [exact Hrun|exact Hdata|].
  rewrite lookup_union_r by done. unfold merged_metadata.
  destruct (overrides_of (heap s) aidr_config !! "extra_info") as [x|] eqn:Hei.
  - destruct (decide (k = "extra_info")) as [->|Hne].
    + rewrite bool_decide_eq_true_2 in Hc by done. simpl in Hc.
      assert (x = v) as -> by congruence.
      destruct v; try discriminate; by apply lookup_union_Some_l.
    + destruct x; try (by apply lookup_union_Some_l).
      apply lookup_union_Some_l. by rewrite lookup_delete_ne.
  - by apply lookup_union_Some_l.
Qed.

(** X3. The keys of the target after the merge are exactly its keys before,
    the default keys and the override's keys: the merge removes no key and
    invents none. *)
Theorem merge_result_keys s data aidr_config D e0 E X :
  merge_pre (heap s) data aidr_config D e0 E X →
  ∃ s' X',
    merge_aidr_metadata data aidr_config s = (Ret data, s') ∧
    heap s' !! data = Some X' ∧
    dom X' = dom X ∪ dom D ∪ dom (overrides_of (heap s) aidr_config).
Proof.
  intros Hpre.
  destruct (merge_aidr_metadata_store _ _ _ _ _ _ _ Hpre)
    as (s' & m & e & Hrun & _ & _ & _ & Hdata & _).
  eexists s', _. split_and!; [exact Hrun|exact Hdata|].
  rewrite dom_union_L, dom_merged_metadata; [set_solver|].
  destruct Hpre as [_ He0 _ _ _ _]. eauto.
Qed.

(** X4. Merging a second time with the same override changes nothing in the
    target, provided the target is neither one of the module's default
    objects nor the override mapping itself. *)
Theorem merge_twice_same_target s data aidr_config D e0 E X :
  merge_pre (heap s) data aidr_config D e0 E X →
  data ≠ DEFAULT_AIDR_METADATA →
  data ≠ e0 →
  aidr_config ≠ Some data →
  ∃ s1 s2 X',
    merge_aidr_metadata data aidr_config s = (Ret data, s1) ∧
    merge_aidr_metadata data aidr_config s1 = (Ret data, s2) ∧
    heap s1 !! data = Some X' ∧
    heap s2 !! data = Some X'.
Proof.
  intros Hpre Hd Hd0 Hcfg.
  destruct (merge_aidr_metadata_store _ _ _ _ _ _ _ Hpre)
    as (s1 & m & e & Hrun & Hm & He & Hme & Hdata & _ & Hframe).
  assert (Hold : ∀ l, is_Some (heap s !! l) → l ≠ data →
                      heap s1 !! l = heap s !! l).
  { intros l [d Hl] Hne. apply Hframe; [done|intros ->; congruence..]. }
  assert (Hstill : ∀ l, is_Some (heap s !! l) → is_Some (heap s1 !! l)).
  { intros l Hl. destruct (decide (l = data)) as [->|Hne]; [by rewrite Hdata|].
    by rewrite Hold. }
  set (O := overrides_of (heap s) aidr_config) in *.
  assert (HO : overrides_of (heap s1) aidr_config = O).
  { unfold O, overrides_of. destruct aidr_config as [cfg|]; [|done].
    rewrite Hold; [done| |congruence].
    destruct Hpre as [_ _ _ _ Hc _]. by apply Hc. }
  pose proof Hpre as [HD He0 HE HX Hc Hv].
  assert (Hpre1 : merge_pre (heap s1) data aidr_config D e0 E
                    (X ∪ merged_metadata O (<["extra_info" := VDict e]> D))).
  { split; try done.
    - rewrite Hold; eauto.
    - rewrite Hold; eauto.
    - intros cfg Hcf. apply Hstill. by apply Hc.
    - intros v. rewrite HO. intros HOv. apply Hstill. by apply Hv. }
  destruct (merge_aidr_metadata_store _ _ _ _ _ _ _ Hpre1)
    as (s2 & m' & e' & Hrun' & _ & _ & _ & Hdata' & _).
  exists s1, s2, (X ∪ merged_metadata O (<["extra_info" := VDict e]> D)).
  split_and!; [exact Hrun|exact Hrun'|exact Hdata|].
  rewrite Hdata', HO. f_equal. apply union_absorb.
  rewrite dom_union_L, !dom_merged_metadata by eauto. set_solver.
Qed.

(** X5. A target that brings its own [extra_info] dictionary keeps it, contents
    included: neither the default entries nor the override's [extra_info]
    entries are written into it. *)
Theorem merge_keeps_own_extra_info s data aidr_config D e0 E X t T :
  merge_pre (heap s) data aidr_config D e0 E X →
  X !! "extra_info" = Some (VDict t) →
  heap s !! t = Some T →
  t ≠ data →
  ∃ s' X',
    merge_aidr_metadata data aidr_config s = (Ret data, s') ∧
    heap s' !! data = Some X' ∧
    X' !! "extra_info" = Some (VDict t) ∧
    heap s' !! t = Some T.
Proof.
  intros Hpre HXe Ht Hne.
  destruct (merge_aidr_metadata_store _ _ _ _ _ _ _ Hpre)
    as (s' & m & e & Hrun & Hm & He & _ & Hdata & _ & Hframe).
  eexists s', _. split_and!; [exact Hrun|exact Hdata|..].
  - by apply lookup_union_Some_l.
  - rewrite Hframe; [done|done|intros ->; congruence..].
Qed.

(** ** The HTTP wrappers *)

Lemma is_Timeout_RequestException c :
  is_Timeout c = true → is_RequestException c = true.
Proof. by destruct c. Qed.

(** What the HTTP call's outcome becomes in the hands of [pangea_post_api]. *)
Lemma pangea_post_api_aidr_run
    (net : network) (cfg : defaults) (endpoint : string) (data : loc)
    (skip_cache : bool) (token base_url : string) (aidr_config : option loc)
    (s s1 : state) :
  merge_aidr_metadata data aidr_config s = (Ret data, s1) →
  pangea_post_api net cfg "aidr" endpoint data skip_cache token base_url
                  aidr_config s =
  (match net (length (sent s1)) with
   | Responded (Some r) => Ret r
   | Responded None =>
       Ret (create_error_response 500 "Internal server error: failed to fetch data")
   | Failed e =>
       if is_Timeout (exn_cls e) then
         Ret (create_error_response 408 "Request Timeout")
       else if is_RequestException (exn_cls e) then
         Ret (create_error_response 400 ("Bad Request: " +:+ exn_str e))
       else Raise e
   end,
   record_request s1 (post_request cfg endpoint data skip_cache token base_url)).
Proof.
  intros Hmerge. unfold pangea_post_api, try_except.
  unfold mbind at 1, M_bind. simpl. rewrite Hmerge.
  unfold mbind, M_bind, requests_call. simpl.
  destruct (net (length (sent s1))) as [[r|]|e]; try done.
  by destruct (is_Timeout (exn_cls e)), (is_RequestException (exn_cls e)).
Qed.


(** X7. For the service "aidr" the metadata is merged into the caller's payload
    before the HTTP call, and stays merged whatever the call does: after a
    timeout, a failure or an exception that is let through, the store is the
    one the merge alone would have left. *)
Theorem post_aidr_keeps_merged_metadata
    (net : network) (cfg : defaults) (endpoint : string) (data : loc)
    (skip_cache : bool) (token base_url : string) (aidr_config : option loc)
    (s : state) D e0 E X :
  merge_pre (heap s) data aidr_config D e0 E X →
  let run := pangea_post_api net cfg "aidr" endpoint data skip_cache token
                             base_url aidr_config s in
  heap run.2 = heap (merge_aidr_metadata data aidr_config s).2 ∧
  ∃ X', heap run.2 !! data = Some X' ∧ X ⊆ X' ∧ dom D ⊆ dom X'.
Proof.
  intros Hpre.
  destruct (merge_aidr_metadata_store _ _ _ _ _ _ _ Hpre)
    as (s1 & m & e & Hrun & _ & _ & _ & Hdata & _).
  simpl. rewrite (pangea_post_api_aidr_run _ _ _ _ _ _ _ _ _ _ Hrun), Hrun. simpl.
  split; [done|]. eexists. split; [exact Hdata|]. split.
  - apply map_union_subseteq_l.
  - rewrite dom_union_L, dom_merged_metadata; [set_solver|].
    destruct Hpre as [_ He0 _ _ _ _]. eauto.
Qed.


(** X9. An exception of the HTTP call that is not a [RequestException] is not
    turned into a response: both wrappers let it through. *)
Theorem wrappers_let_other_exceptions_through
    (net : network) (cfg : defaults) (service endpoint : string) (data : loc)
    (skip_cache : bool) (token base_url : string) (aidr_config : option loc)
    (get_endpoint : string) (s : state) (e : exn) D e0 E X :
  (service = "aidr" → merge_pre (heap s) data aidr_config D e0 E X) →
  net (length (sent s)) = Failed e →
  is_RequestException (exn_cls e) = false →
  (pangea_post_api net cfg service endpoint data skip_cache token base_url
                   aidr_config s).1 = Raise e ∧
  (pangea_get_api net cfg get_endpoint token base_url s).1 = Raise e.
Proof.
  intros Hpre Hnet He.
  assert (Ht : is_Timeout (exn_cls e) = false).
  { destruct (is_Timeout (exn_cls e)) eqn:Ht; [|done].
    apply is_Timeout_RequestException in Ht. congruence. }
  destruct (pangea_post_api_run net cfg service endpoint data skip_cache token
              base_url aidr_config s D e0 E X Hpre) as [h' Hpost].
  rewrite Hpost, (pangea_get_api_failed _ _ _ _ _ _ _ Hnet), Hnet, Ht, He. done.
Qed.

(** X10. When the defaults have lost their [extra_info], the metadata step
    raises [KeyError] and [pangea_post_api] for the service "aidr" lets it
    through: no response is synthesized and no request is issued. *)
Theorem post_aidr_lets_merge_error_through
    (net : network) (cfg : defaults) (endpoint : string) (data : loc)
    (skip_cache : bool) (token base_url : string) (aidr_config : option loc)
    (s : state) D :
  heap s !! DEFAULT_AIDR_METADATA = Some D →
  D !! "extra_info" = None →
  let run := pangea_post_api net cfg "aidr" endpoint data skip_cache token
                             base_url aidr_config s in
  (∃ e, run.1 = Raise e ∧ exn_cls e = KeyError ∧
        (merge_aidr_metadata data aidr_config s).1 = Raise e) ∧
  sent run.2 = sent s.
Proof.
  intros HD He0 run.
  assert (Hmerge : merge_aidr_metadata data aidr_config s =
    (Raise (Exn KeyError "extra_info"),
     with_heap s (<[fresh (dom (heap s)) := D]> (heap s)))).
  { unfold merge_aidr_metadata.
    erewrite bind_run; last first.
    { unfold dict_copy. rewrite (bind_run _ _ _ _ _ (read_dict_run _ _ _ HD)).
      apply new_dict_run. }
    unfold mbind at 1, M_bind. unfold dict_getitem.
    erewrite bind_run; last first.
    { apply read_dict_run. rewrite heap_with_heap, lookup_insert_ne; [exact HD|].
      symmetry. by eapply fresh_loc_ne. }
    by rewrite He0. }
  assert (Hrun : run = (Raise (Exn KeyError "extra_info"),
                        with_heap s (<[fresh (dom (heap s)) := D]> (heap s)))).
  { unfold run, pangea_post_api, try_except.
    unfold mbind at 1, M_bind. simpl. by rewrite Hmerge. }
  rewrite Hrun, Hmerge. split; [|done].
  by exists (Exn KeyError "extra_info").
Qed.

(** ** The polling loop *)

Section polling_more.
Context (net : network) (cfg : defaults).
Context (request_id : string) (max_attempts : Z) (token base_url : string).

Lemma poll_attempt_none fuel response counter s :
  net (length (sent s)) = Responded None →
  poll_loop net cfg (S fuel) request_id max_attempts token base_url
      (JStr "Accepted") response counter s =
  (Ret (JStr "Accepted", None),
   record_request s (poll_get cfg request_id token base_url)).
Proof.
  intros Hnet. simpl. unfold pangea_request.
  by rewrite (bind_run _ _ _ _ _ (pangea_get_api_responded _ _ _ _ _ _ _ Hnet)).
Qed.

Lemma poll_attempt_bad_body fuel response counter s r :
  net (length (sent s)) = Responded (Some r) →
  status_of r = None →
  ∃ e,
    poll_loop net cfg (S fuel) request_id max_attempts token base_url
        (JStr "Accepted") response counter s =
    (Raise e, record_request s (poll_get cfg request_id token base_url)) ∧
    exn_cls e = match _content r with
                | Undecodable _ => JSONDecodeError
                | Encoded (JObj _) => KeyError
                | Encoded _ => TypeError
                end.
Proof.
  intros Hnet Hst. simpl. unfold pangea_request.
  rewrite (bind_run _ _ _ _ _ (pangea_get_api_responded _ _ _ _ _ _ _ Hnet)).
  unfold status_of in Hst. unfold Response_json.
  destruct (_content r) as [[| | | | |fields]|]; try (by eexists).
  eexists. unfold mbind, M_bind, mret, M_ret, json_getitem. by rewrite Hst.
Qed.

Lemma poll_attempt_raise fuel response counter s e :
  net (length (sent s)) = Failed e →
  is_RequestException (exn_cls e) = false →
  poll_loop net cfg (S fuel) request_id max_attempts token base_url
      (JStr "Accepted") response counter s =
  (Raise e, record_request s (poll_get cfg request_id token base_url)).
Proof.
  intros Hnet He. simpl. unfold pangea_request, mbind, M_bind.
  rewrite (pangea_get_api_failed _ _ _ _ _ _ _ Hnet), He.
  destruct (is_Timeout (exn_cls e)) eqn:Ht; [|done].
  apply is_Timeout_RequestException in Ht. congruence.
Qed.

Lemma poll_attempt_synthesized fuel response counter s e :
  net (length (sent s)) = Failed e →
  is_RequestException (exn_cls e) = true →
  ∃ code message,
    poll_loop net cfg (S fuel) request_id max_attempts token base_url
        (JStr "Accepted") response counter s =
    (Ret (JInt code, Some (create_error_response code message)),
     record_request s (poll_get cfg request_id token base_url)).
Proof.
  intros Hnet He.
  pose proof (pangea_get_api_failed net cfg ("/request/" +:+ request_id)
                token base_url s e Hnet) as Hget.
  rewrite He in Hget.
  destruct (is_Timeout (exn_cls e)); do 2 eexists;
    by eapply poll_attempt_terminal.
Qed.




(** Whatever the loop returns, the status is the one its response carries;
    without a response it is still "Accepted". *)
Lemma poll_loop_pair fuel :
  ∀ status response counter s status' response' s',
    (response = None ∧ status = JStr "Accepted" ∨
     ∃ r, response = Some r ∧ status_of r = Some status) →
    poll_loop net cfg fuel request_id max_attempts token base_url
        status response counter s = (Ret (status', response'), s') →
    response' = None ∧ status' = JStr "Accepted" ∨
    ∃ r, response' = Some r ∧ status_of r = Some status'.
Proof.
  induction fuel as [|fuel IH]; intros status response counter s status' response' s' Hinv Hrun.
  - simpl in Hrun. destruct (eq_str status "Accepted"); [done|].
    by injection Hrun as <- <- _.
  - destruct (eq_str status "Accepted") eqn:Hst.
    2:{ rewrite poll_loop_exit in Hrun by done. by injection Hrun as <- <- _. }
    apply eq_str_true in Hst. subst status.
    destruct (net (length (sent s))) as [[r|]|e] eqn:Hnet.
    + destruct (status_of r) as [j|] eqn:Hj.
      * destruct (eq_str j "Accepted") eqn:Hacc.
        -- apply eq_str_true in Hacc. subst j.
           destruct (decide (counter = max_attempts)) as [->|Hc].
           ++ rewrite poll_attempt_ceiling with (r := r) in Hrun by done.
              injection Hrun as <- <- _. right. eauto.
           ++ rewrite poll_attempt_accepted with (r := r) in Hrun by done.
              eapply IH; [|exact Hrun]. right. eauto.
        -- erewrite poll_attempt_terminal in Hrun; [| |exact Hj|exact Hacc];
             last (unfold pangea_request; by apply pangea_get_api_responded).
           injection Hrun as <- <- _. right. eauto.
      * destruct (poll_attempt_bad_body fuel response counter s r Hnet Hj)
          as (e & He & _). congruence.
    + rewrite poll_attempt_none in Hrun by done.
      injection Hrun as <- <- _. by left.
    + destruct (is_RequestException (exn_cls e)) eqn:He.
      * destruct (poll_attempt_synthesized fuel response counter s e Hnet He)
          as (code & message & Hsyn).
        rewrite Hsyn in Hrun. injection Hrun as <- <- _. right. eauto.
      * rewrite (poll_attempt_raise _ _ _ _ e) in Hrun by done. congruence.
Qed.
End polling_more.

(** X11. The first attempt whose status is not the string "Accepted" ends the
    polling: after [k] attempts answered "Accepted", a response that carries
    any other status value, a string or not, is returned with that value,
    after [k + 1] GET requests and [k] sleeps. *)
Theorem poll_request_stops_at_first_other_status
    (net : network) (cfg : defaults) (request_id : string) (max_attempts : Z)
    (verbose : bool) (token base_url : string) (rs : nat → Response)
    (k : nat) (r : Response) (j : json) (s : state) (fuel : nat) :
  (∀ i, i < k → net (length (sent s) + i) = Responded (Some (rs i))) →
  (∀ i, i < k → status_of (rs i) = Some (JStr "Accepted")) →
  (max_attempts < 1 ∨ Z.of_nat k < max_attempts)%Z →
  net (length (sent s) + k) = Responded (Some r) →
  status_of r = Some j →
  j ≠ JStr "Accepted" →
  S k ≤ fuel →
  poll_request net cfg fuel request_id max_attempts verbose token base_url s
    = (Ret (j, Some r),
       after_attempts s (poll_get cfg request_id token base_url) (S k) k).
Proof.
  intros Hnet Hacc Hissued Hk Hj Hne Hfuel.
  unfold poll_request.
  replace fuel with (k + S (fuel - S k)) by lia.
  rewrite (poll_loop_accepted_run _ _ _ _ _ _ rs k) by (done || (intros; lia)).
  rewrite <- (after_attempts_last _ _ k k).
  eapply poll_attempt_terminal; [|exact Hj|].
  - unfold pangea_request. apply pangea_get_api_responded.
    by rewrite length_sent_after.
  - destruct (eq_str j "Accepted") eqn:Heq; [|done].
    by apply eq_str_true in Heq.
Qed.

(** X12. When a GET yields no response object, after [k] attempts answered
    "Accepted", polling stops there and returns ["Accepted"] with no
    response: the responses received before are not returned. *)
Theorem poll_request_stops_on_no_response
    (net : network) (cfg : defaults) (request_id : string) (max_attempts : Z)
    (verbose : bool) (token base_url : string) (rs : nat → Response)
    (k : nat) (s : state) (fuel : nat) :
  (∀ i, i < k → net (length (sent s) + i) = Responded (Some (rs i))) →
  (∀ i, i < k → status_of (rs i) = Some (JStr "Accepted")) →
  (max_attempts < 1 ∨ Z.of_nat k < max_attempts)%Z →
  net (length (sent s) + k) = Responded None →
  S k ≤ fuel →
  poll_request net cfg fuel request_id max_attempts verbose token base_url s
    = (Ret (JStr "Accepted", None),
       after_attempts s (poll_get cfg request_id token base_url) (S k) k).
Proof.
  intros Hnet Hacc Hissued Hk Hfuel.
  unfold poll_request.
  replace fuel with (k + S (fuel - S k)) by lia.
  rewrite (poll_loop_accepted_run _ _ _ _ _ _ rs k) by (done || (intros; lia)).
  rewrite <- (after_attempts_last _ _ k k).
  apply poll_attempt_none. by rewrite length_sent_after.
Qed.

(** X13. A response whose body gives no status makes [poll_request] raise, not
    return: [JSONDecodeError] when the body does not decode, [KeyError] when
    it is an object without a [status] key, [TypeError] when it decodes to
    something that is not an object. *)
Theorem poll_request_raises_on_bad_body
    (net : network) (cfg : defaults) (request_id : string) (max_attempts : Z)
    (verbose : bool) (token base_url : string) (rs : nat → Response)
    (k : nat) (r : Response) (s : state) (fuel : nat) :
  (∀ i, i < k → net (length (sent s) + i) = Responded (Some (rs i))) →
  (∀ i, i < k → status_of (rs i) = Some (JStr "Accepted")) →
  (max_attempts < 1 ∨ Z.of_nat k < max_attempts)%Z →
  net (length (sent s) + k) = Responded (Some r) →
  status_of r = None →
  S k ≤ fuel →
  ∃ e,
    poll_request net cfg fuel request_id max_attempts verbose token base_url s
      = (Raise e,
         after_attempts s (poll_get cfg request_id token base_url) (S k) k) ∧
    exn_cls e = match _content r with
                | Undecodable _ => JSONDecodeError
                | Encoded (JObj _) => KeyError
                | Encoded _ => TypeError
                end.
Proof.
  intros Hnet Hacc Hissued Hk Hst Hfuel.
  unfold poll_request.
  replace fuel with (k + S (fuel - S k)) by lia.
  rewrite (poll_loop_accepted_run _ _ _ _ _ _ rs k) by (done || (intros; lia)).
  rewrite <- (after_attempts_last _ _ k k).
  apply poll_attempt_bad_body; [|done]. by rewrite length_sent_after.
Qed.

(** X14. With [max_attempts < 1] the counter, which starts at 1 and only grows,
    never equals the ceiling: as long as the answers are "Accepted" the loop
    goes on, and after any number of iterations it has issued that many GET
    requests and is not done. *)
Theorem poll_request_unbounded_below_one
    (net : network) (cfg : defaults) (request_id : string) (max_attempts : Z)
    (verbose : bool) (token base_url : string) (rs : nat → Response)
    (s : state) (fuel : nat) :
  (max_attempts < 1)%Z →
  (∀ i, net (length (sent s) + i) = Responded (Some (rs i))) →
  (∀ i, status_of (rs i) = Some (JStr "Accepted")) →
  poll_request net cfg fuel request_id max_attempts verbose token base_url s
    = (OutOfFuel,
       after_attempts s (poll_get cfg request_id token base_url) fuel fuel).
Proof.
  intros Hmax Hnet Hacc. unfold poll_request.
  replace fuel with (fuel + 0) at 1 by lia.
  by rewrite (poll_loop_accepted_run _ _ _ _ _ _ rs fuel) by (done || (intros; lia)).
Qed.


(** X16. In the pair [poll_request] returns, the status is the one read from the
    returned response; when there is no response the status is "Accepted". *)
Theorem poll_request_status_is_of_response
    (net : network) (cfg : defaults) (request_id : string) (max_attempts : Z)
    (verbose : bool) (token base_url : string) (s s' : state) (fuel : nat)
    (status : json) (response : option Response) :
  poll_request net cfg fuel request_id max_attempts verbose token base_url s
    = (Ret (status, response), s') →
  response = None ∧ status = JStr "Accepted" ∨
  ∃ r, response = Some r ∧ status_of r = Some status.
Proof.
  intros Hrun. eapply poll_loop_pair; [|exact Hrun]. by left.
Qed.

(** ** Module import *)


(** ** The further properties on the sample inputs *)

Lemma empty_override_merge_pre :
  merge_pre (heap state_with_empty_override) 2 None default_aidr_metadata
            DEFAULT_extra_info (default_extra_info "root") sample_payload.
Proof. by split. Defined.

Lemma merge_empty_override_as_none_witness :
  merge_aidr_metadata 2 (Some 5) state_with_empty_override
  = merge_aidr_metadata 2 None state_with_empty_override.
Proof.
  apply (merge_empty_override_as_none state_with_empty_override 2 5
           default_aidr_metadata DEFAULT_extra_info (default_extra_info "root")
           sample_payload empty_override_merge_pre).
  reflexivity.
Defined.

Lemma merge_override_entries_pass_through_witness :
  ∃ s' X',
    merge_aidr_metadata 2 (Some 3) sample_state = (Ret 2, s') ∧
    heap s' !! 2 = Some X' ∧
    X' !! "model" = Some (VStr "m1").
Proof.
  apply (merge_override_entries_pass_through sample_state 2 (Some 3)
           default_aidr_metadata DEFAULT_extra_info (default_extra_info "root")
           sample_payload "model" (VStr "m1") sample_merge_pre);
    reflexivity.
Defined.

Lemma merge_result_keys_witness :
  ∃ s' X',
    merge_aidr_metadata 2 (Some 3) sample_state = (Ret 2, s') ∧
    heap s' !! 2 = Some X' ∧
    dom X' = dom sample_payload ∪ dom default_aidr_metadata ∪ dom sample_overrides.
Proof.
  apply (merge_result_keys sample_state 2 (Some 3)
           default_aidr_metadata DEFAULT_extra_info (default_extra_info "root")
           sample_payload sample_merge_pre).
Defined.

Lemma merge_twice_same_target_witness :
  ∃ s1 s2 X',
    merge_aidr_metadata 2 (Some 3) sample_state = (Ret 2, s1) ∧
    merge_aidr_metadata 2 (Some 3) s1 = (Ret 2, s2) ∧
    heap s1 !! 2 = Some X' ∧
    heap s2 !! 2 = Some X'.
Proof.
  apply (merge_twice_same_target sample_state 2 (Some 3)
           default_aidr_metadata DEFAULT_extra_info (default_extra_info "root")
           sample_payload sample_merge_pre); discriminate.
Defined.


Lemma post_aidr_keeps_merged_metadata_witness :
  heap (pangea_post_api net_read_timeout sample_defaults "aidr" "/v1/guard" 2
          true "tok" "https://aidr.example" (Some 3) sample_state).2
  = heap (merge_aidr_metadata 2 (Some 3) sample_state).2.
Proof.
  apply (post_aidr_keeps_merged_metadata net_read_timeout sample_defaults
           "/v1/guard" 2 true "tok" "https://aidr.example" (Some 3) sample_state
           default_aidr_metadata DEFAULT_extra_info (default_extra_info "root")
           sample_payload sample_merge_pre).
Defined.


Lemma wrappers_let_other_exceptions_through_witness :
  (pangea_post_api net_interrupted sample_defaults "aidr" "/v1/guard" 2 false
                   "tok" "https://aidr.example" (Some 3) sample_state).1
  = Raise (Exn KeyboardInterrupt "") ∧
  (pangea_get_api net_interrupted sample_defaults "/request/r1"
                  "tok" "https://aidr.example" sample_state).1
  = Raise (Exn KeyboardInterrupt "").
Proof.
  apply (wrappers_let_other_exceptions_through net_interrupted sample_defaults
           "aidr" "/v1/guard" 2 false "tok" "https://aidr.example" (Some 3)
           "/request/r1" sample_state (Exn KeyboardInterrupt "")
           default_aidr_metadata DEFAULT_extra_info (default_extra_info "root")
           sample_payload (λ _, sample_merge_pre)); reflexivity.
Defined.

Lemma post_aidr_lets_merge_error_through_witness :
  (∃ e,
     (pangea_post_api net_always_accepted sample_defaults "aidr" "/v1/guard" 2
        false "tok" "https://aidr.example" None state_without_extra_info).1
     = Raise e ∧
     exn_cls e = KeyError ∧
     (merge_aidr_metadata 2 None state_without_extra_info).1 = Raise e) ∧
  sent (pangea_post_api net_always_accepted sample_defaults "aidr" "/v1/guard" 2
          false "tok" "https://aidr.example" None state_without_extra_info).2
  = [].
Proof.
  apply (post_aidr_lets_merge_error_through net_always_accepted sample_defaults
           "/v1/guard" 2 false "tok" "https://aidr.example" None
           state_without_extra_info (delete "extra_info" default_aidr_metadata));
    reflexivity.
Defined.

Lemma net_then_accepted third i :
  i < 2 → net_then third (0 + i) = Responded (Some accepted_response).
Proof.
  intros Hi. unfold net_then. simpl.
  destruct (Nat.ltb_spec i 2); [reflexivity|lia].
Defined.

Lemma poll_request_stops_at_first_other_status_witness :
  poll_request (net_then (Responded (Some queued_response))) sample_defaults 12
               "r1" 12 false "tok" "https://aidr.example" (initial_state "root")
  = (Ret (JInt 102, Some queued_response),
     after_attempts (initial_state "root")
       (poll_get sample_defaults "r1" "tok" "https://aidr.example") 3 2).
Proof.
  apply (poll_request_stops_at_first_other_status
           (net_then (Responded (Some queued_response))) sample_defaults
           "r1" 12 false "tok" "https://aidr.example" (λ _, accepted_response)
           2 queued_response (JInt 102) (initial_state "root") 12).
  - apply net_then_accepted.
  - intros i Hi. reflexivity.
  - lia.
  - reflexivity.
  - reflexivity.
  - discriminate.
  - lia.
Defined.

Lemma poll_request_stops_on_no_response_witness :
  poll_request (net_then (Responded None)) sample_defaults 12
               "r1" 12 false "tok" "https://aidr.example" (initial_state "root")
  = (Ret (JStr "Accepted", None),
     after_attempts (initial_state "root")
       (poll_get sample_defaults "r1" "tok" "https://aidr.example") 3 2).
Proof.
  apply (poll_request_stops_on_no_response
           (net_then (Responded None)) sample_defaults
           "r1" 12 false "tok" "https://aidr.example" (λ _, accepted_response)
           2 (initial_state "root") 12).
  - apply net_then_accepted.
  - intros i Hi. reflexivity.
  - lia.
  - reflexivity.
  - lia.
Defined.

Lemma poll_request_raises_on_bad_body_witness :
  ∃ e,
    poll_request (net_then (Responded (Some undecodable_response))) sample_defaults
                 12 "r1" 12 false "tok" "https://aidr.example" (initial_state "root")
    = (Raise e,
       after_attempts (initial_state "root")
         (poll_get sample_defaults "r1" "tok" "https://aidr.example") 3 2) ∧
    exn_cls e = JSONDecodeError.
Proof.
  apply (poll_request_raises_on_bad_body
           (net_then (Responded (Some undecodable_response))) sample_defaults
           "r1" 12 false "tok" "https://aidr.example" (λ _, accepted_response)
           2 undecodable_response (initial_state "root") 12).
  - apply net_then_accepted.
  - intros i Hi. reflexivity.
  - lia.
  - reflexivity.
  - reflexivity.
  - lia.
Defined.

Lemma poll_request_unbounded_below_one_witness :
  poll_request net_always_accepted sample_defaults 7 "r1" 0 false
               "tok" "https://aidr.example" (initial_state "root")
  = (OutOfFuel,
     after_attempts (initial_state "root")
       (poll_get sample_defaults "r1" "tok" "https://aidr.example") 7 7).
Proof.
  apply (poll_request_unbounded_below_one net_always_accepted sample_defaults
           "r1" 0 false "tok" "https://aidr.example" (λ _, accepted_response)
           (initial_state "root") 7).
  - lia.
  - intros i. reflexivity.
  - intros i. reflexivity.
Defined.


Lemma poll_request_status_is_of_response_witness :
  Some failure_response = None ∧ JStr "ValidationError" = JStr "Accepted" ∨
  ∃ r, Some failure_response = Some r ∧
       status_of r = Some (JStr "ValidationError").
Proof.
  apply (poll_request_status_is_of_response net_failure sample_defaults
           "r1" 12 false "tok" "https://aidr.example" (initial_state "root")
           (record_request (initial_state "root")
              (poll_get sample_defaults "r1" "tok" "https://aidr.example"))
           12 (JStr "ValidationError") (Some failure_response)).
  reflexivity.
Defined.

Lemma own_extra_merge_pre :
  merge_pre (heap state_with_own_extra) 6 (Some 3) default_aidr_metadata
            DEFAULT_extra_info (default_extra_info "root") payload_with_extra.
Proof.
  split; try reflexivity.
  - intros cfg [= <-]. by eexists.
  - intros v Hv. vm_compute in Hv. injection Hv as <-. by eexists.
Defined.

Lemma merge_keeps_own_extra_info_witness :
  ∃ s' X',
    merge_aidr_metadata 6 (Some 3) state_with_own_extra = (Ret 6, s') ∧
    heap s' !! 6 = Some X' ∧
    X' !! "extra_info" = Some (VDict 7) ∧
    heap s' !! 7 = Some {["b" := VInt 2]}.
Proof.
  apply (merge_keeps_own_extra_info state_with_own_extra 6 (Some 3)
           default_aidr_metadata DEFAULT_extra_info (default_extra_info "root")
           payload_with_extra 7 {["b" := VInt 2]} own_extra_merge_pre);
    [reflexivity|reflexivity|discriminate].
Defined.
